(** * Snapline: the upload, feed and delete handlers of [app/app.py]

    A shallow embedding of the three request handlers of the FastAPI
    application ([upload_file], [get_feed], [delete_post]) and the
    properties of the upload-and-feed pipeline.

    The handlers are Python coroutines that mutate a file system, a
    database session and the tables behind it, and that leave through
    [return], through [raise], and through [try]/[except]/[finally].
    They are embedded in a state-and-exception monad whose state survives
    a raise, as Python's does. *)

From Stdlib Require Import ZArith String Ascii List Sorted Permutation Lia.
From Stdlib.Strings Require Import Byte.
From stdpp Require Import gmap strings list sorting pretty.

Open Scope string_scope.

(** ** Python values the handlers build *)

(** The values stored under the keys of the dict literals the handlers
    return: booleans and strings. *)
Inductive value :=
| VBool (b : bool)
| VStr (s : string).

(** A dict literal, with its keys in the order written. *)
Definition dict : Type := list (string * value).

(** [d.get(k)] on a dict literal. *)
Fixpoint dict_get (k : string) (d : dict) : option value :=
  match d with
  | [] => None
  | (k', v) :: d' => if String.eqb k k' then Some v else dict_get k d'
  end.

(** ** Exceptions *)

(** [HTTPException] is FastAPI's (a subclass of [Exception]); every other
    subclass of [Exception] is a [PyException] with its class name and its
    [str(e)]; [PyBaseException] stands for the exceptions outside
    [Exception] (cancellation, keyboard interrupt), which
    [except Exception] lets through. *)
Inductive exn :=
| HTTPException (status_code : Z) (detail : string)
| PyException (cls : string) (msg : string)
| PyBaseException (cls : string).

(** [isinstance(e, Exception)]. *)
Definition is_Exception (e : exn) : bool :=
  match e with
  | HTTPException _ _ | PyException _ _ => true
  | PyBaseException _ => false
  end.

(** [str(e)].  Starlette's [HTTPException.__str__] is
    [f"{self.status_code}: {self.detail}"]. *)
Definition exn_str (e : exn) : string :=
  match e with
  | HTTPException c d => pretty c +:+ ": " +:+ d
  | PyException _ msg => msg
  | PyBaseException _ => ""
  end.

(** How a block of Python code is left. *)
Inductive outcome (A : Type) :=
| Return (a : A)
| Raise (e : exn).
Arguments Return {A} a.
Arguments Raise {A} e.

(** ** The state-and-exception monad *)

Section Monad.
Context {S : Type}.

Definition M (A : Type) : Type := S → outcome A * S.

Definition ret {A} (a : A) : M A := λ s, (Return a, s).

Definition raise {A} (e : exn) : M A := λ s, (Raise e, s).

(** A raise ends the sequence; the state reached so far stays. *)
Definition bind {A B} (m : M A) (k : A → M B) : M B :=
  λ s, match m s with
       | (Return a, s') => k a s'
       | (Raise e, s') => (Raise e, s')
       end.

Definition modify (f : S → S) : M unit := λ s, (Return tt, f s).

(** [try: body  except Exception as e: handler(e)] *)
Definition try_except {A} (body : M A) (handler : exn → M A) : M A :=
  λ s, match body s with
       | (Return a, s') => (Return a, s')
       | (Raise e, s') =>
           if is_Exception e then handler e s' else (Raise e, s')
       end.

(** [try: body  finally: cleanup].  The cleanup runs however the body is
    left; what the body returned or raised stands unless the cleanup
    itself raises. *)
Definition try_finally {A} (body : M A) (cleanup : M unit) : M A :=
  λ s, match body s with
       | (r, s') =>
           match cleanup s' with
           | (Return _, s'') => (r, s'')
           | (Raise e, s'') => (Raise e, s'')
           end
       end.
End Monad.
Arguments M S A : clear implicits.

Declare Scope py_scope.
Delimit Scope py_scope with py.
Notation "x <- m ;; k" := (bind m (λ x, k))
  (at level 100, m at next level, right associativity) : py_scope.
Notation "m ;;; k" := (bind m (λ _, k))
  (at level 100, right associativity) : py_scope.
Open Scope py_scope.

(** ** Library functions the handlers call *)

(** *** Strings *)

Definition digit_char (n : N) : ascii :=
  match n with
  | 0 => "0" | 1 => "1" | 2 => "2" | 3 => "3" | 4 => "4" | 5 => "5"
  | 6 => "6" | 7 => "7" | 8 => "8" | 9 => "9" | 10 => "a" | 11 => "b"
  | 12 => "c" | 13 => "d" | 14 => "e" | _ => "f"
  end%N%char.

(** The [width] lowest digits of [n] in [base], most significant first,
    in front of [acc]: ["%0<width>d"] and ["%0<width>x"] on a number that
    fits. *)
Fixpoint digits (base : N) (width : nat) (n : N) (acc : string) : string :=
  match width with
  | O => acc
  | S w => digits base w (n / base)%N (String (digit_char (n mod base)%N) acc)
  end.

(** [s.startswith(p)]. *)
Definition startswith (p s : string) : bool := String.prefix p s.

(** [s.replace(old, "")] for a non-empty [old]: the occurrences of [old]
    are removed from left to right; [skip] counts the characters of a
    found occurrence still to drop. *)
Fixpoint remove_sub (old : string) (skip : nat) (s : string) : string :=
  match s with
  | "" => ""
  | String c s' =>
      match skip with
      | S k => remove_sub old k s'
      | O =>
          if String.prefix old s
          then remove_sub old (String.length old - 1) s'
          else String c (remove_sub old 0 s')
      end
  end.

Definition in_chars (c : ascii) (chars : string) : bool :=
  existsb (Ascii.eqb c) (list_ascii_of_string chars).

Fixpoint lstrip (chars s : string) : string :=
  match s with
  | "" => ""
  | String c s' => if in_chars c chars then lstrip chars s' else s
  end.

Fixpoint rstrip (chars s : string) : string :=
  match s with
  | "" => ""
  | String c s' =>
      match rstrip chars s' with
      | "" => if in_chars c chars then "" else String c ""
      | r => String c r
      end
  end.

(** [s.strip(chars)]. *)
Definition strip (chars s : string) : string := rstrip chars (lstrip chars s).

(** [s.rfind(c)] for a one-character [c]: the last index of [c] in [s],
    or [-1]. *)
Fixpoint rfind_from (c : ascii) (s : string) (i : Z) (last : Z) : Z :=
  match s with
  | "" => last
  | String c' s' => rfind_from c s' (i + 1) (if Ascii.eqb c c' then i else last)
  end.
Definition rfind (c : ascii) (s : string) : Z := rfind_from c s 0 (-1).

(** [s[i:j]] for [0 <= i <= j]. *)
Definition slice (s : string) (i j : Z) : string :=
  String.substring (Z.to_nat i) (Z.to_nat (j - i)) s.

(** [len(s)].  A string is kept as the bytes of its UTF-8 encoding; its
    characters are the bytes that do not continue one ([10xxxxxx]). *)
Definition is_continuation (c : ascii) : bool :=
  (128 <=? N_of_ascii c)%N && (N_of_ascii c <? 192)%N.

Fixpoint len (s : string) : nat :=
  match s with
  | "" => O
  | String c s' => if is_continuation c then len s' else S (len s')
  end.

Definition apostrophe : ascii := ascii_of_nat 39.
Definition quotation_mark : ascii := ascii_of_nat 34.
Definition backslash : ascii := ascii_of_nat 92.

(** [repr(s)]: the string between apostrophes, or between quotation
    marks when it holds an apostrophe and no quotation mark; the
    backslash, the quote and the control characters are escaped.  (The
    characters outside ASCII are written as they are, which is what
    [repr] does with the printable ones.) *)
Definition repr_char (quote c : ascii) : string :=
  let n := N_of_ascii c in
  if Ascii.eqb c backslash || Ascii.eqb c quote then String backslash (String c "")
  else if (n =? 9)%N then String backslash "t"
  else if (n =? 10)%N then String backslash "n"
  else if (n =? 13)%N then String backslash "r"
  else if (n <? 32)%N || (n =? 127)%N
       then String backslash (String "x" (digits 16 2 n ""))
  else String c "".

Fixpoint repr_chars (quote : ascii) (s : string) : string :=
  match s with
  | "" => ""
  | String c s' => repr_char quote c +:+ repr_chars quote s'
  end.

Definition repr (s : string) : string :=
  let quote :=
    if in_chars apostrophe s && negb (in_chars quotation_mark s)
    then quotation_mark else apostrophe in
  String quote (repr_chars quote s +:+ String quote "").

(** *** [os.path.splitext] (posixpath) *)

(** The loop of [genericpath._splitext] that skips the leading dots of
    the file name: is there a character other than [.] in
    [p[filenameIndex:dotIndex]]? *)
Fixpoint has_non_dot (s : string) : bool :=
  match s with
  | "" => false
  | String c s' => if Ascii.eqb c "." then has_non_dot s' else true
  end.

(** [os.path.splitext(p)]: the extension is what follows the last dot of
    the last path component, unless that component has only leading
    dots before it. *)
Definition splitext (p : string) : string * string :=
  let sepIndex := rfind "/" p in
  let dotIndex := rfind "." p in
  let n := Z.of_nat (String.length p) in
  if (sepIndex <? dotIndex)%Z && has_non_dot (slice p (sepIndex + 1) dotIndex)
  then (slice p 0 dotIndex, slice p dotIndex n)
  else (p, "").

(** *** [uuid.UUID] *)

(** A UUID is its 128-bit integer ([UUID.int]); [==] compares the
    integers. *)
Definition uuid : Type := N.
Bind Scope N_scope with uuid.

Definition hex_value (c : ascii) : option N :=
  let n := N_of_ascii c in
  if (48 <=? n)%N && (n <=? 57)%N then Some (n - 48)%N
  else if (97 <=? n)%N && (n <=? 102)%N then Some (n - 87)%N
  else if (65 <=? n)%N && (n <=? 70)%N then Some (n - 55)%N
  else None.

(** [Py_ISSPACE]: the blanks [int] skips around a number. *)
Definition is_space (c : ascii) : bool :=
  ((9 <=? N_of_ascii c)%N && (N_of_ascii c <=? 13)%N) || (N_of_ascii c =? 32)%N.

Fixpoint skip_space (s : string) : string :=
  match s with
  | "" => ""
  | String c s' => if is_space c then skip_space s' else s
  end.

(** The sign in front of the number: is it a minus, and what follows. *)
Definition skip_sign (s : string) : bool * string :=
  match s with
  | String c s' =>
      if Ascii.eqb c "+" then (false, s')
      else if Ascii.eqb c "-" then (true, s')
      else (false, s)
  | "" => (false, "")
  end.

(** The prefix [0x] or [0X] of base 16, and the one underscore that may
    follow it. *)
Definition skip_prefix (s : string) : string :=
  match s with
  | String c0 (String c1 s') =>
      if Ascii.eqb c0 "0" && (Ascii.eqb c1 "x" || Ascii.eqb c1 "X")
      then match s' with
           | String c2 s'' => if Ascii.eqb c2 "_" then s'' else s'
           | "" => ""
           end
      else s
  | _ => s
  end.

(** The scan of the digits: hexadecimal digits with single underscores
    between them.  The result is the number read, how many digits it has,
    and what follows; an underscore after an underscore or at the end of
    the digits is an error. *)
Fixpoint read_digits (s : string) (after_underscore : bool) (acc : N) (count : nat)
  : option (N * nat * string) :=
  match s with
  | "" => if after_underscore then None else Some (acc, count, "")
  | String c s' =>
      match hex_value c with
      | Some d => read_digits s' false (16 * acc + d)%N (S count)
      | None =>
          if Ascii.eqb c "_"
          then if after_underscore then None else read_digits s' true acc count
          else if after_underscore then None else Some (acc, count, s)
      end
  end.

(** [PyLong_FromString(s, 16)]: blanks, a sign, the prefix, the digits,
    blanks; [None] is the [ValueError]. *)
Definition long_from_string (s : string) : option Z :=
  let signed := skip_sign (skip_space s) in
  let s := skip_prefix (snd signed) in
  if match s with String c _ => Ascii.eqb c "_" | "" => false end then None
  else
    match read_digits s false 0 0 with
    | Some (n, count, rest) =>
        if (count =? 0)%nat then None
        else
          match skip_space rest with
          | "" => Some (if fst signed then (- Z.of_N n)%Z else Z.of_N n)
          | _ => None
          end
    | None => None
    end.

(** The characters of a string: the code points its UTF-8 bytes encode;
    [pending] is the code point whose bytes are being read. *)
Fixpoint code_points (s : string) (pending : option N) : list N :=
  match s with
  | "" => option_list pending
  | String c s' =>
      let b := N_of_ascii c in
      if is_continuation c
      then code_points s' ((λ cp, cp * 64 + (b - 128))%N <$> pending)
      else (option_list pending ++
            code_points s'
              (Some (if b <? 128 then b else if b <? 224 then b - 192
                     else if b <? 240 then b - 224 else b - 240)%N))%list
  end.

Definition is_ascii (s : string) : bool :=
  forallb (λ c, N_of_ascii c <? 128)%N (list_ascii_of_string s).

(** [Py_UNICODE_ISSPACE]. *)
Definition unicode_space (cp : N) : bool :=
  existsb (N.eqb cp)
    [0x9; 0xa; 0xb; 0xc; 0xd; 0x1c; 0x1d; 0x1e; 0x1f; 0x20; 0x85; 0xa0; 0x1680;
     0x2000; 0x2001; 0x2002; 0x2003; 0x2004; 0x2005; 0x2006; 0x2007; 0x2008;
     0x2009; 0x200a; 0x2028; 0x2029; 0x202f; 0x205f; 0x3000]%N.

(** The zeros of the decimal digits of Unicode (version 14, that of
    Python 3.11); the nine other digits follow each of them. *)
Definition decimal_zeros : list N :=
  [0x30; 0x660; 0x6f0; 0x7c0; 0x966; 0x9e6; 0xa66; 0xae6; 0xb66; 0xbe6; 0xc66;
   0xce6; 0xd66; 0xde6; 0xe50; 0xed0; 0xf20; 0x1040; 0x1090; 0x17e0; 0x1810;
   0x1946; 0x19d0; 0x1a80; 0x1a90; 0x1b50; 0x1bb0; 0x1c40; 0x1c50; 0xa620;
   0xa8d0; 0xa900; 0xa9d0; 0xa9f0; 0xaa50; 0xabf0; 0xff10; 0x104a0; 0x10d30;
   0x11066; 0x110f0; 0x11136; 0x111d0; 0x112f0; 0x11450; 0x114d0; 0x11650;
   0x116c0; 0x11730; 0x118e0; 0x11950; 0x11c50; 0x11d50; 0x11da0; 0x16a60;
   0x16ac0; 0x16b50; 0x1d7ce; 0x1d7d8; 0x1d7e2; 0x1d7ec; 0x1d7f6; 0x1e140;
   0x1e2f0; 0x1e950; 0x1fbf0]%N.

(** [Py_UNICODE_TODECIMAL]. *)
Definition unicode_decimal (cp : N) : option N :=
  (λ zero, cp - zero)%N
    <$> List.find (λ zero, (zero <=? cp) && (cp <? zero + 10))%N decimal_zeros.

(** [_PyUnicode_TransformDecimalAndSpaceToASCII] on a string that is not
    ASCII: the blanks become spaces and the decimal digits ASCII digits;
    the string ends with a question mark at the first character that is
    neither. *)
Fixpoint transform_decimal_and_space (cps : list N) : string :=
  match cps with
  | [] => ""
  | cp :: cps' =>
      if (cp <? 127)%N then String (ascii_of_N cp) (transform_decimal_and_space cps')
      else if unicode_space cp then String " " (transform_decimal_and_space cps')
      else
        match unicode_decimal cp with
        | Some d => String (ascii_of_N (48 + d)) (transform_decimal_and_space cps')
        | None => "?"
        end
  end.

(** [int(s, 16)]: an ASCII string is read as it is, any other after that
    transformation. *)
Definition int16 (s : string) : option Z :=
  long_from_string
    (if is_ascii s then s else transform_decimal_and_space (code_points s None)).

(** What the constructor makes of its argument before it reads the
    digits: the [urn:] and [uuid:] prefixes, the surrounding braces and
    all hyphens are dropped. *)
Definition UUID_hex (hex : string) : string :=
  let hex := remove_sub "uuid:" 0 (remove_sub "urn:" 0 hex) in
  remove_sub "-" 0 (strip "{}" hex).

(** [uuid.UUID(hex)]: what is left must be 32 characters long and must be
    a number in base 16, of 128 bits; anything else raises
    [ValueError]. *)
Definition UUID (hex : string) : outcome uuid :=
  let hex := UUID_hex hex in
  if negb (len hex =? 32)%nat
  then Raise (PyException "ValueError" "badly formed hexadecimal UUID string")
  else match int16 hex with
       | Some n =>
           if (0 <=? n)%Z && (n <? 2 ^ 128)%Z then Return (Z.to_N n)
           else Raise (PyException "ValueError"
                         "int is out of range (need a 128-bit value)")
       | None =>
           Raise (PyException "ValueError"
                    ("invalid literal for int() with base 16: " +:+ repr hex))
       end.

(** [str(u)]: 32 lower-case hexadecimal digits grouped 8-4-4-4-12. *)
Definition uuid_str (u : uuid) : string :=
  let hex := digits 16 32 u "" in
  slice hex 0 8 +:+ "-" +:+ slice hex 8 12 +:+ "-" +:+ slice hex 12 16
    +:+ "-" +:+ slice hex 16 20 +:+ "-" +:+ slice hex 20 32.

(** *** [datetime.datetime] (naive) *)

Module datetime.
Record t := mk {
  year : N; month : N; day : N;
  hour : N; minute : N; second : N; microsecond : N }.

(** Comparison is that of the tuples of fields. *)
Definition key (d : t) : list N :=
  [year d; month d; day d; hour d; minute d; second d; microsecond d].

Fixpoint lex (a b : list N) : comparison :=
  match a, b with
  | [], [] => Eq
  | [], _ :: _ => Lt
  | _ :: _, [] => Gt
  | x :: a', y :: b' =>
      match (x ?= y)%N with
      | Eq => lex a' b'
      | c => c
      end
  end.

Definition compare (d1 d2 : t) : comparison := lex (key d1) (key d2).

(** [d1 < d2] and [d1 <= d2]. *)
Definition ltb (d1 d2 : t) : bool :=
  match compare d1 d2 with Lt => true | _ => false end.
Definition leb (d1 d2 : t) : bool :=
  match compare d1 d2 with Gt => false | _ => true end.

(** [d.isoformat()]: [YYYY-MM-DDTHH:MM:SS], with [.ffffff] when the
    microsecond is not zero. *)
Definition isoformat (d : t) : string :=
  digits 10 4 (year d) "" +:+ "-" +:+ digits 10 2 (month d) "" +:+ "-"
    +:+ digits 10 2 (day d) "" +:+ "T" +:+ digits 10 2 (hour d) "" +:+ ":"
    +:+ digits 10 2 (minute d) "" +:+ ":" +:+ digits 10 2 (second d) ""
    +:+ (if (microsecond d =? 0)%N then ""
         else "." +:+ digits 10 6 (microsecond d) "").
End datetime.

(** ** The data model *)

(** Modelled from the spec: the [User] table of [app/db.py], which is not
    among the sources; [id] and [email] are what section 3 of the
    specification says the pipeline reads, and what the handlers read. *)
Module User.
Record t := mk { id : uuid; email : string }.
End User.

(** Modelled from the spec: the [Post] table of [app/db.py], which is not
    among the sources; the columns are those of section 3 of the
    specification and those the handlers read and write.  [id] is the
    primary key, [id] and [created_at] are filled in by column defaults
    when the row is inserted. *)
Module Post.
Record t := mk {
  id : uuid;
  user_id : uuid;
  caption : string;
  url : string;
  file_type : string;
  file_name : string;
  created_at : datetime.t }.
End Post.

(** A [Post(...)] object as the handler constructs it, before the session
    has flushed it: the keyword arguments of the constructor. *)
Module NewPost.
Record t := mk {
  user_id : uuid;
  caption : string;
  url : string;
  file_type : string;
  file_name : string }.

(** The row the INSERT writes for it. *)
Definition row (id : uuid) (now : datetime.t) (p : t) : Post.t :=
  Post.mk id (user_id p) (caption p) (url p) (file_type p) (file_name p) now.
End NewPost.

(** FastAPI's [UploadFile]: name and content type as the client sent them
    (both optional), and the bytes of the spooled file. *)
Module UploadFile.
Record t := mk {
  filename : option string;
  content_type : option string;
  file : list byte }.
End UploadFile.

(** An answer of the media store to an upload, as [imagekit.upload_file]
    gives it: the url and the name of the stored file, and the status of
    the HTTP response. *)
Module UploadFileResult.
Record metadata := mk_metadata { http_status_code : Z }.
Record t := mk { url : string; name : string; response_metadata : metadata }.
End UploadFileResult.

(** The HTTP status an upload result carries. *)
Definition status (upload_result : UploadFileResult.t) : Z :=
  UploadFileResult.http_status_code (UploadFileResult.response_metadata upload_result).

(** ** State *)

(** What outlives a request: the file system (path to content) and the
    two tables. *)
Record World := mkWorld {
  files : gmap string (list byte);
  posts : list Post.t;
  users : list User.t }.

(** A request in flight: the world, the objects its session holds for the
    next commit ([session.add], [session.delete]), and the local
    [temp_file_path] of [upload_file] ([None] or a path), which is
    assigned inside the [try] and read in the [finally]. *)
Record Frame := mkFrame {
  world : World;
  session_new : list NewPost.t;
  session_deleted : list Post.t;
  temp_file_path : option string }.

Definition set_files (f : gmap string (list byte)) (fr : Frame) : Frame :=
  mkFrame (mkWorld f (posts (world fr)) (users (world fr)))
    (session_new fr) (session_deleted fr) (temp_file_path fr).
Definition set_posts (ps : list Post.t) (fr : Frame) : Frame :=
  mkFrame (mkWorld (files (world fr)) ps (users (world fr)))
    (session_new fr) (session_deleted fr) (temp_file_path fr).
Definition set_session (new : list NewPost.t) (del : list Post.t) (fr : Frame) : Frame :=
  mkFrame (world fr) new del (temp_file_path fr).
Definition set_temp_file_path (p : option string) (fr : Frame) : Frame :=
  mkFrame (world fr) (session_new fr) (session_deleted fr) p.

(** What the collaborators of one request do: the characters the random
    generator chooses for the names of [tempfile], whether copying the
    upload fails, what the media store answers to the upload (or what the
    exchange with it raises), the class and the text of the exception the
    client makes of an answer that is not a 200, the values of the column
    defaults ([uuid4], [utcnow]) for the row the request inserts, whether
    the database refuses the commit, the text of its integrity error, and
    whether it refuses the refresh. *)
Record Env := mkEnv {
  random_choice : nat → nat → nat;
  copyfileobj_exn : option exn;
  imagekit_upload_file : outcome UploadFileResult.t;
  imagekit_error : string * string;
  uuid4 : uuid;
  utcnow : datetime.t;
  commit_exn : option exn;
  integrity_error : string;
  refresh_exn : option exn }.

(** ** The operations of the collaborators *)

Definition of_outcome {A} (o : outcome A) : M Frame A := λ fr, (o, fr).

Definition get_temp_file_path : M Frame (option string) :=
  λ fr, (Return (temp_file_path fr), fr).

(** *** [tempfile], [shutil], [os] *)

(** [os.TMP_MAX] and [NAME_MAX] of Linux. *)
Definition TMP_MAX : nat := N.to_nat 238328.
Definition NAME_MAX : nat := 255.
Definition gettempdir : string := "/tmp".

(** The characters of [tempfile._RandomNameSequence]. *)
Definition characters : string := "abcdefghijklmnopqrstuvwxyz0123456789_".

(** The name [tempfile] draws at its [i]-th attempt: eight characters,
    each the one the generator chooses among [characters]. *)
Definition random_names (env : Env) (i : nat) : string :=
  string_of_list_ascii
    ((λ k, default "_"%char
             (String.get (random_choice env i k mod String.length characters)
                characters))
       <$> seq 0 8).

(** The [i]-th path [tempfile] tries: directory, the prefix [tmp], a
    random name, the suffix. *)
Definition candidate (env : Env) (suffix : string) (i : nat) : string :=
  gettempdir +:+ "/" +:+ "tmp" +:+ random_names env i +:+ suffix.

(** What [os.open] refuses of the path [dir/name] whether or not a file
    is there: a NUL byte, and a name of more than [NAME_MAX] bytes.  (The
    names made here hold no slash: the random part is made of
    [characters], and an extension cut by [os.path.splitext] has none.) *)
Definition open_refuses (dir name : string) : option exn :=
  if in_chars zero (dir +:+ "/" +:+ name)
  then Some (PyException "ValueError" "embedded null byte")
  else if (NAME_MAX <? String.length name)%nat
  then Some (PyException "OSError"
               ("[Errno 36] File name too long: " +:+ repr (dir +:+ "/" +:+ name)))
  else None.

(** The loop of [tempfile._mkstemp_inner], from the attempt [i] with
    [attempts] attempts left: the first candidate path that does not
    exist yet; a path [os.open] refuses ends the loop with its error, a
    path that exists is skipped ([FileExistsError]). *)
Fixpoint mkstemp_inner (env : Env) (suffix : string) (fs : gmap string (list byte))
    (i attempts : nat) : outcome string :=
  match attempts with
  | O =>
      Raise (PyException "FileExistsError"
               "[Errno 17] No usable temporary file name found")
  | S attempts' =>
      match open_refuses gettempdir ("tmp" +:+ random_names env i +:+ suffix) with
      | Some e => Raise e
      | None =>
          match fs !! candidate env suffix i with
          | Some _ => mkstemp_inner env suffix fs (S i) attempts'
          | None => Return (candidate env suffix i)
          end
      end
  end.

Definition mkstemp (env : Env) (suffix : string) (fs : gmap string (list byte))
  : outcome string :=
  mkstemp_inner env suffix fs 0 TMP_MAX.

Arguments mkstemp : simpl never.

(** The path of the temporary file, when one is made. *)
Definition mkstemp_name (env : Env) (suffix : string)
    (fs : gmap string (list byte)) : option string :=
  match mkstemp env suffix fs with
  | Return f => Some f
  | Raise _ => None
  end.

Arguments mkstemp_name : simpl never.

(** [tempfile.NamedTemporaryFile(delete=False, suffix=suffix)]: that path
    is created, empty.  The result is the file's [name]. *)
Definition NamedTemporaryFile (env : Env) (suffix : string) : M Frame string :=
  λ fr,
    match mkstemp env suffix (files (world fr)) with
    | Return f => (Return f, set_files (<[f := []]> (files (world fr))) fr)
    | Raise e => (Raise e, fr)
    end.

(** [shutil.copyfileobj(src, dst)] into the open file at [path]. *)
Definition copyfileobj (env : Env) (src : list byte) (path : string) : M Frame unit :=
  match copyfileobj_exn env with
  | Some e => raise e
  | None => λ fr, (Return tt, set_files (<[path := src]> (files (world fr))) fr)
  end.

(** [open(path, "rb")], as far as its content. *)
Definition open_rb (path : option string) : M Frame (list byte) :=
  λ fr,
    match path with
    | None =>
        (Raise (PyException "TypeError"
                  "expected str, bytes or os.PathLike object, not NoneType"), fr)
    | Some p =>
        match files (world fr) !! p with
        | Some content => (Return content, fr)
        | None =>
            (Raise (PyException "FileNotFoundError"
                      ("[Errno 2] No such file or directory: " +:+ repr p)), fr)
        end
    end.

(** [os.path.exists(path)]. *)
Definition path_exists (path : string) : M Frame bool :=
  λ fr, (Return (bool_decide (is_Some (files (world fr) !! path))), fr).

(** [os.unlink(path)]. *)
Definition unlink (path : string) : M Frame unit :=
  λ fr,
    match files (world fr) !! path with
    | Some _ => (Return tt, set_files (delete path (files (world fr))) fr)
    | None =>
        (Raise (PyException "FileNotFoundError"
                  ("[Errno 2] No such file or directory: " +:+ repr path)), fr)
    end.

(** *** The media store client *)

(** Modelled from the spec: [imagekit] of [app/images.py], which is not
    among the sources.  Section 4.2 of the specification has the client
    treat every answer of the store that is no success as a failure: the
    answer is returned when its status is 200, and an exception of the
    client (an [Exception]) is raised otherwise, as it is when the
    exchange with the store fails.
    [imagekit.upload_file(file=..., file_name=..., options=...)]. *)
Definition imagekit_upload (env : Env) (file : list byte) (file_name : option string)
  : M Frame UploadFileResult.t :=
  match imagekit_upload_file env with
  | Return upload_result =>
      if (status upload_result =? 200)%Z then ret upload_result
      else raise (PyException (fst (imagekit_error env)) (snd (imagekit_error env)))
  | Raise e => raise e
  end.

(** *** The database session *)

(** [session.add(post)]. *)
Definition session_add (post : NewPost.t) : M Frame unit :=
  modify (λ fr, set_session (session_new fr ++ [post]) (session_deleted fr) fr).

(** [session.delete(post)]. *)
Definition session_delete (post : Post.t) : M Frame unit :=
  modify (λ fr, set_session (session_new fr) (session_deleted fr ++ [post]) fr).

(** The INSERTs of a flush: each new object gets the column defaults and
    goes to the end of the table; a row with that primary key already
    there is an integrity error. *)
Fixpoint insert_rows (id : uuid) (now : datetime.t) (new : list NewPost.t)
    (table : list Post.t) : option (list Post.t) :=
  match new with
  | [] => Some table
  | p :: new' =>
      if existsb (λ r, Post.id r =? id)%N table then None
      else insert_rows id now new' (table ++ [NewPost.row id now p])
  end.

(** The DELETEs of a flush: by primary key. *)
Definition delete_rows (del : list Post.t) (table : list Post.t) : list Post.t :=
  List.filter (λ r, negb (existsb (λ d, Post.id d =? Post.id r)%N del)) table.

(** [await session.commit()]: either the database refuses and nothing is
    written, or the pending objects are flushed and the session holds
    nothing pending any more. *)
Definition session_commit (env : Env) : M Frame unit :=
  λ fr,
    match commit_exn env with
    | Some e => (Raise e, fr)
    | None =>
        match insert_rows (uuid4 env) (utcnow env) (session_new fr) (posts (world fr)) with
        | None => (Raise (PyException "IntegrityError" (integrity_error env)), fr)
        | Some table =>
            (Return tt, set_session [] [] (set_posts (delete_rows (session_deleted fr) table) fr))
        end
    end.

(** [await session.refresh(post)] for the object this request added: its
    row is read back by the primary key the flush gave it. *)
Definition session_refresh (env : Env) : M Frame Post.t :=
  λ fr,
    match refresh_exn env with
    | Some e => (Raise e, fr)
    | None =>
        match List.find (λ r, Post.id r =? uuid4 env)%N (posts (world fr)) with
        | Some row => (Return row, fr)
        | None =>
            (Raise (PyException "InvalidRequestError" "Could not refresh instance"), fr)
        end
    end.

(** [select(Post).where(Post.id == post_uuid)] with [.scalars().first()]. *)
Definition select_post (post_uuid : uuid) : M Frame (option Post.t) :=
  λ fr, (Return (List.find (λ r, Post.id r =? post_uuid)%N (posts (world fr))), fr).

(** [created_at] of [a] is not before that of [b]: the order of
    [ORDER BY created_at DESC]. *)
Definition not_older (a b : Post.t) : Prop :=
  datetime.leb (Post.created_at b) (Post.created_at a) = true.

Global Instance not_older_dec a b : Decision (not_older a b).
Proof. unfold not_older. apply _. Defined.

(** [created_at] of [a] is after that of [b]. *)
Definition newer (a b : Post.t) : Prop :=
  datetime.ltb (Post.created_at b) (Post.created_at a) = true.

Global Instance datetime_eq_dec : EqDecision datetime.t.
Proof. solve_decision. Defined.

(** [select(Post).order_by(Post.created_at.desc())] with [.all()]. *)
Definition select_posts_desc : M Frame (list Post.t) :=
  λ fr, (Return (merge_sort not_older (posts (world fr))), fr).

(** [select(User)] with [.all()]. *)
Definition select_users : M Frame (list User.t) :=
  λ fr, (Return (users (world fr)), fr).

(** ** The handlers *)

(** [POST /upload], the block under [try]. *)
Definition upload_try (env : Env) (file : UploadFile.t) (caption : string)
    (user : User.t) : M Frame (option Post.t) :=
  suffix <-
    match UploadFile.filename file with
    | Some filename => ret (snd (splitext filename))
    | None =>
        raise (PyException "TypeError"
                 "expected str, bytes or os.PathLike object, not NoneType")
    end ;;
  temp_file <- NamedTemporaryFile env suffix ;;
  modify (set_temp_file_path (Some temp_file)) ;;;
  copyfileobj env (UploadFile.file file) temp_file ;;;
  path <- get_temp_file_path ;;
  content <- open_rb path ;;
  upload_result <- imagekit_upload env content (UploadFile.filename file) ;;
  if (UploadFileResult.http_status_code
        (UploadFileResult.response_metadata upload_result) =? 200)%Z
  then
    file_type <-
      match UploadFile.content_type file with
      | Some content_type =>
          ret (if startswith "video/" content_type then "video" else "image")
      | None =>
          raise (PyException "AttributeError"
                   "'NoneType' object has no attribute 'startswith'")
      end ;;
    let post :=
      NewPost.mk (User.id user) caption (UploadFileResult.url upload_result)
        file_type (UploadFileResult.name upload_result) in
    session_add post ;;;
    session_commit env ;;;
    post <- session_refresh env ;;
    ret (Some post)
  else ret None.

(** The block under [except Exception as e], here and in [delete_post]. *)
Definition reraise_500 {A} (e : exn) : M Frame A :=
  raise (HTTPException 500 (exn_str e)).

(** The block under [finally]. *)
Definition upload_finally : M Frame unit :=
  path <- get_temp_file_path ;;
  match path with
  | Some p =>
      if negb (String.eqb p "")
      then (there <- path_exists p ;; if there then unlink p else ret tt)
      else ret tt
  | None => ret tt
  end.

(** [POST /upload].  [print] and [file.file.close()] leave the modelled
    state as it is and are not shown. *)
Definition upload_file (env : Env) (file : UploadFile.t) (caption : string)
    (user : User.t) : M Frame (option Post.t) :=
  modify (set_temp_file_path None) ;;;
  try_finally
    (try_except (upload_try env file caption user) reraise_500)
    upload_finally.

(** The entry of one post in the feed. *)
Definition post_data (user : User.t) (user_dict : gmap N string) (post : Post.t) : dict :=
  [ ("id", VStr (uuid_str (Post.id post)));
    ("user_id", VStr (uuid_str (Post.user_id post)));
    ("caption", VStr (Post.caption post));
    ("url", VStr (Post.url post));
    ("file_type", VStr (Post.file_type post));
    ("file_name", VStr (Post.file_name post));
    ("created_at", VStr (datetime.isoformat (Post.created_at post)));
    ("is_owner", VBool (Post.user_id post =? User.id user)%N);
    ("email", VStr (default "Unknown" (user_dict !! Post.user_id post))) ].

(** [{u.id : u.email for u in users}]: a later user with the same id
    replaces an earlier one. *)
Definition user_dict (users : list User.t) : gmap N string :=
  foldl (λ d u, <[User.id u := User.email u]> d) ∅ users.

(** [GET /feed]: the result is the dict [{"posts": posts_data}]. *)
Definition get_feed (user : User.t) : M Frame (list (string * list dict)) :=
  posts <- select_posts_desc ;;
  users <- select_users ;;
  let user_dict := user_dict users in
  let posts_data :=
    foldl (λ (posts_data : list dict) post,
             (posts_data ++ [post_data user user_dict post])%list) [] posts in
  ret [("posts", posts_data)].

(** [DELETE /posts/{post_id}]. *)
Definition delete_post (env : Env) (post_id : string) (user : User.t) : M Frame dict :=
  try_except
    (post_uuid <- of_outcome (UUID post_id) ;;
     post <- select_post post_uuid ;;
     match post with
     | None => raise (HTTPException 404 "Post not found")
     | Some post =>
         if negb (Post.user_id post =? User.id user)%N
         then raise (HTTPException 403 "You dont have permission to delete this post")
         else
           session_delete post ;;;
           session_commit env ;;;
           ret [("success", VBool true); ("messsage", VStr "Post deleted successfully")]
     end)
    reraise_500.

(** ** Requests *)

(** One request: the handler runs on the world with a session of its own
    ([get_async_session]); what the session still holds at the end is
    dropped with it. *)
Definition request {A} (handler : M Frame A) (w : World) : outcome A * World :=
  match handler (mkFrame w [] [] None) with
  | (r, fr) => (r, world fr)
  end.

(** [caption : str = Form("")]: a form without the field gives [""]. *)
Definition POST_upload (env : Env) (file : UploadFile.t) (caption : option string)
    (user : User.t) (w : World) : outcome (option Post.t) * World :=
  request (upload_file env file (default "" caption) user) w.

Definition GET_feed (user : User.t) (w : World)
  : outcome (list (string * list dict)) * World :=
  request (get_feed user) w.

Definition DELETE_post (env : Env) (post_id : string) (user : User.t) (w : World)
  : outcome dict * World :=
  request (delete_post env post_id user) w.

(** ** Sample requests *)

Definition alice : User.t := User.mk 1 "alice@example.com".
Definition bob : User.t := User.mk 2 "bob@example.com".

Definition cat_png : UploadFile.t :=
  UploadFile.mk (Some "cat.png") (Some "image/png") [x89; x50; x4e; x47].
Definition clip_mp4 : UploadFile.t :=
  UploadFile.mk (Some "clip.mp4") (Some "video/mp4") [x00; x00; x00; x18].

Definition stored (url name : string) (code : Z) : UploadFileResult.t :=
  UploadFileResult.mk url name (UploadFileResult.mk_metadata code).

Definition noon : datetime.t := datetime.mk 2024 1 5 12 0 0 0.

(** The choices that make the name [k3v9_x0a], at every attempt. *)
Definition k3v9_x0a (i k : nat) : nat := nth k [10; 29; 21; 35; 36; 23; 26; 0] 0.

(** The collaborators of a request in which nothing else fails and the
    media store answers with [code]; the inserted row would get the id
    [id]. *)
Definition env_status (code : Z) (id : uuid) : Env :=
  mkEnv k3v9_x0a None
    (Return (stored "https://ik.example/cat_Q1.png" "cat_Q1.png" code))
    (if (code =? 403)%Z then "ForbiddenException" else "UnknownException",
     "Your request was not accepted.")
    id noon None "UNIQUE constraint failed: posts.id" None.

(** The same, with a media store that cannot be reached. *)
Definition env_store_raises : Env :=
  mkEnv k3v9_x0a None
    (Raise (PyException "ConnectionError" "Connection aborted."))
    ("UnknownException", "Your request was not accepted.")
    7 noon None "UNIQUE constraint failed: posts.id" None.

(** Alice and Bob are registered; nothing has been posted. *)
Definition w_empty : World := mkWorld ∅ [] [alice; bob].

Definition post_of (id owner : uuid) (created_at : datetime.t) : Post.t :=
  Post.mk id owner "hi" "https://ik.example/cat_Q1.png" "image" "cat_Q1.png" created_at.

(** Alice has posted once, as post 7. *)
Definition w_one : World := mkWorld ∅ [post_of 7 1 noon] [alice; bob].

(** Three posts, stored out of order of their creation. *)
Definition w_three : World :=
  mkWorld ∅
    [ post_of 7 1 (datetime.mk 2024 1 5 12 0 0 0);
      post_of 9 2 (datetime.mk 2024 3 1 8 30 0 0);
      post_of 8 1 (datetime.mk 2024 1 5 12 0 0 250) ]
    [alice; bob].

(** ** What the upload leaves behind *)

(** The temporary file a call of [upload_file] creates in the world [w]:
    none when the upload has no file name, when [os.open] refuses the
    name, or when no temporary name is free. *)
Definition staged_path (env : Env) (file : UploadFile.t) (w : World) : option string :=
  match UploadFile.filename file with
  | Some filename => mkstemp_name env (snd (splitext filename)) (files w)
  | None => None
  end.

(** Where the staging stands when the [try] block has been left, seen
    from the world [w] the request started in: [temp_file_path] is the
    temporary file of the call, if it has one, and that file is the one
    path added to the files of [w]. *)
Definition staged (env : Env) (file : UploadFile.t) (w : World) (fr : Frame) : Prop :=
  temp_file_path fr = staged_path env file w ∧
  match staged_path env file w with
  | Some p =>
      String.eqb p "" = false ∧ files w !! p = None ∧
      ∃ content, files (world fr) = <[p := content]> (files w)
  | None => files (world fr) = files w
  end.

(** [post] is the row of a successful upload: the media store answered
    200, and the columns are the caller, the caption, the store's answer,
    the type read off the content type, and the column defaults. *)
Definition created_post (env : Env) (file : UploadFile.t) (caption : string)
    (user : User.t) (post : Post.t) : Prop :=
  ∃ upload_result content_type,
    imagekit_upload_file env = Return upload_result ∧
    status upload_result = 200%Z ∧
    UploadFile.content_type file = Some content_type ∧
    post = Post.mk (uuid4 env) (User.id user) caption
             (UploadFileResult.url upload_result)
             (if startswith "video/" content_type then "video" else "image")
             (UploadFileResult.name upload_result) (utcnow env).

(** Why [upload_file] can be left by an exception: no temporary file
    could be made, the copy fails, the exchange with the media store
    raises, the store answers with a status that is not 200, or, after a
    200, the upload has no content type, the commit is refused, the id of
    the new row is taken, or the refresh fails. *)
Definition raise_cause (env : Env) (file : UploadFile.t) (w : World) : Prop :=
  staged_path env file w = None ∨
  is_Some (copyfileobj_exn env) ∨
  (∃ e, imagekit_upload_file env = Raise e) ∨
  (∃ upload_result,
     imagekit_upload_file env = Return upload_result ∧
     status upload_result ≠ 200%Z) ∨
  (∃ upload_result,
     imagekit_upload_file env = Return upload_result ∧
     status upload_result = 200%Z ∧
     (UploadFile.content_type file = None ∨
      is_Some (commit_exn env) ∨
      existsb (λ r, Post.id r =? uuid4 env)%N (posts w) = true ∨
      is_Some (refresh_exn env))).

(** The exits of [upload_file] from the world [w], by outcome [r] and
    world left [w'].  The handler never returns [None]: the client hands
    it no answer that is not a 200.  (When it is the refresh that fails,
    the handler raises and the row of the upload is in the table all the
    same.) *)
Definition upload_exit (env : Env) (file : UploadFile.t) (caption : string)
    (user : User.t) (w : World) (r : outcome (option Post.t)) (w' : World) : Prop :=
  users w' = users w ∧
  match r with
  | Return (Some post) =>
      created_post env file caption user post ∧ posts w' = (posts w ++ [post])%list
  | Return None => False
  | Raise e =>
      ((∃ detail, e = HTTPException 500 detail) ∨ is_Exception e = false) ∧
      raise_cause env file w ∧
      (posts w' = posts w ∨
       ∃ post, created_post env file caption user post ∧
               posts w' = (posts w ++ [post])%list)
  end.

(** ** The exits of the upload, one by one *)

(** What leaves a [try] block with [except Exception as e] that raises
    the 500, when the block raises [e]. *)
Definition caught (e : exn) : exn :=
  if is_Exception e then HTTPException 500 (exn_str e) else e.

(** The world after the upload has inserted [post]. *)
Definition with_post (w : World) (post : Post.t) : World :=
  mkWorld (files w) (posts w ++ [post]) (users w).

(** How the staging of the upload ends: the path of the temporary file,
    or the exception of [os.path.splitext] or of [tempfile]. *)
Definition staging (env : Env) (file : UploadFile.t) (w : World) : outcome string :=
  match UploadFile.filename file with
  | Some filename => mkstemp env (snd (splitext filename)) (files w)
  | None =>
      Raise (PyException "TypeError"
               "expected str, bytes or os.PathLike object, not NoneType")
  end.

(** The outcome of [upload_file] and the world it leaves, read off the
    collaborators in the order the handler meets them. *)
Definition upload_outcome (env : Env) (file : UploadFile.t) (caption : string)
    (user : User.t) (w : World) : outcome (option Post.t) * World :=
  match staging env file w with
  | Raise e => (Raise (caught e), w)
  | Return _ =>
      match copyfileobj_exn env with
      | Some e => (Raise (caught e), w)
      | None =>
          match imagekit_upload_file env with
          | Raise e => (Raise (caught e), w)
          | Return upload_result =>
              if (status upload_result =? 200)%Z then
                match UploadFile.content_type file with
                | None =>
                    (Raise (HTTPException 500
                              "'NoneType' object has no attribute 'startswith'"), w)
                | Some content_type =>
                    match commit_exn env with
                    | Some e => (Raise (caught e), w)
                    | None =>
                        if existsb (λ r, Post.id r =? uuid4 env)%N (posts w)
                        then (Raise (HTTPException 500 (integrity_error env)), w)
                        else
                          let post :=
                            Post.mk (uuid4 env) (User.id user) caption
                              (UploadFileResult.url upload_result)
                              (if startswith "video/" content_type
                               then "video" else "image")
                              (UploadFileResult.name upload_result) (utcnow env) in
                          match refresh_exn env with
                          | Some e => (Raise (caught e), with_post w post)
                          | None => (Return (Some post), with_post w post)
                          end
                    end
                end
              else (Raise (HTTPException 500 (snd (imagekit_error env))), w)
          end
      end
  end.

(** The post table has a primary key: no two rows share an [id]. *)
Definition unique_ids (w : World) : Prop := NoDup (Post.id <$> posts w).

(** More sample collaborators: the database refuses the refresh; the
    request is cancelled while the commit is awaited. *)
Definition env_refresh_fails : Env :=
  mkEnv k3v9_x0a None
    (Return (stored "https://ik.example/cat_Q1.png" "cat_Q1.png" 200))
    ("UnknownException", "Your request was not accepted.")
    7 noon None "UNIQUE constraint failed: posts.id"
    (Some (PyException "OperationalError" "connection lost")).

Definition env_cancelled : Env :=
  mkEnv k3v9_x0a None
    (Return (stored "https://ik.example/cat_Q1.png" "cat_Q1.png" 200))
    ("UnknownException", "Your request was not accepted.")
    7 noon (Some (PyBaseException "CancelledError"))
    "UNIQUE constraint failed: posts.id" None.

Definition no_content_type : UploadFile.t :=
  UploadFile.mk (Some "cat.png") None [x89; x50; x4e; x47].

(** The rows a DELETE by the primary key [post_uuid] leaves. *)
Definition without_id (post_uuid : uuid) (table : list Post.t) : list Post.t :=
  List.filter (λ r, negb (Post.id r =? post_uuid)%N) table.

(** ** Requests in a row *)

(** A request to one of the three endpoints, with what its collaborators
    do when it is served. *)
Inductive call :=
| Upload (env : Env) (file : UploadFile.t) (caption : option string) (user : User.t)
| Feed (user : User.t)
| Delete (env : Env) (post_id : string) (user : User.t).

(** The world a request leaves. *)
Definition serve (w : World) (c : call) : World :=
  match c with
  | Upload env file caption user => snd (POST_upload env file caption user w)
  | Feed user => snd (GET_feed user w)
  | Delete env post_id user => snd (DELETE_post env post_id user w)
  end.

(** The world after the requests [calls], served one after the other. *)
Definition serve_all (w : World) (calls : list call) : World := foldl serve w calls.

(** ** Identifiers as strings *)

(** Every character of [s] passes the test [P]. *)
Fixpoint string_forallb (P : ascii → bool) (s : string) : bool :=
  match s with
  | "" => true
  | String c s' => P c && string_forallb P s'
  end.

(** The characters [str] writes a UUID with, hyphens apart. *)
Definition lower_hex (c : ascii) : bool := in_chars c "0123456789abcdef".

(** The number a run of hexadecimal digits writes, after [acc]. *)
Fixpoint read_hex (s : string) (acc : N) : option N :=
  match s with
  | "" => Some acc
  | String c s' =>
      match hex_value c with
      | Some d => read_hex s' (16 * acc + d)%N
      | None => None
      end
  end.

(** An upload whose file name has an extension of 260 characters. *)
Definition long_name : UploadFile.t :=
  UploadFile.mk (Some ("a." +:+ string_of_list_ascii (repeat "x"%char 260)))
    (Some "image/png") [x89; x50; x4e; x47].

(** ** Reasoning about handlers *)

(** [wp m Q fr]: run from [fr], the handler [m] ends in an outcome and a
    frame that satisfy [Q]. *)
Definition wp {A} (m : M Frame A) (Q : outcome A → Frame → Prop) (fr : Frame) : Prop :=
  match m fr with
  | (r, fr') => Q r fr'
  end.

Section wp_rules.
Context {A B : Type}.
Implicit Types (Q : outcome B → Frame → Prop) (fr : Frame).

Lemma wp_ret (b : B) Q fr : Q (Return b) fr → wp (ret b) Q fr.
  Proof. done. Qed.

Lemma wp_raise e Q fr : Q (Raise e) fr → wp (raise e) Q fr.
  Proof. done. Qed.

Lemma wp_of_outcome (o : outcome B) Q fr : Q o fr → wp (of_outcome o) Q fr.
  Proof. done. Qed.

Lemma wp_bind (m : M Frame A) (k : A → M Frame B) Q fr :
    wp m (λ r fr', match r with
                   | Return a => wp (k a) Q fr'
                   | Raise e => Q (Raise e) fr'
                   end) fr →
    wp (bind m k) Q fr.
  Proof. unfold wp, bind. by destruct (m fr) as [[a|e] fr']. Qed.

Lemma wp_try_except (body : M Frame B) (handler : exn → M Frame B) Q fr :
    wp body (λ r fr', match r with
                      | Return b => Q (Return b) fr'
                      | Raise e =>
                          if is_Exception e then wp (handler e) Q fr'
                          else Q (Raise e) fr'
                      end) fr →
    wp (try_except body handler) Q fr.
  Proof.
    unfold wp, try_except. destruct (body fr) as [[b|e] fr']; [done|].
    by destruct (is_Exception e).
  Qed.

Lemma wp_try_finally (body : M Frame B) (cleanup : M Frame unit) Q fr :
    wp body (λ r fr',
      wp cleanup (λ rc fr'', match rc with
                             | Return _ => Q r fr''
                             | Raise e => Q (Raise e) fr''
                             end) fr') fr →
    wp (try_finally body cleanup) Q fr.
  Proof.
    unfold wp, try_finally. destruct (body fr) as [r fr'].
    by destruct (cleanup fr') as [[[]|e] fr''].
  Qed.

Lemma wp_mono (m : M Frame B) Q (Q' : outcome B → Frame → Prop) fr :
    wp m Q fr → (∀ r fr', Q r fr' → Q' r fr') → wp m Q' fr.
  Proof. unfold wp. destruct (m fr). auto. Qed.
End wp_rules.

(** *** The collaborators' operations *)

Section wp_operations.
Context {B : Type}.
Implicit Types (Q : outcome B → Frame → Prop) (fr : Frame).

Lemma wp_modify f (Q : outcome unit → Frame → Prop) fr :
  Q (Return tt) (f fr) → wp (modify f) Q fr.
Proof. done. Qed.

Lemma wp_get_temp_file_path (Q : outcome (option string) → Frame → Prop) fr :
  Q (Return (temp_file_path fr)) fr → wp get_temp_file_path Q fr.
Proof. done. Qed.

Lemma wp_NamedTemporaryFile env suffix (Q : outcome string → Frame → Prop) fr :
  match mkstemp env suffix (files (world fr)) with
  | Return f => Q (Return f) (set_files (<[f := []]> (files (world fr))) fr)
  | Raise e => Q (Raise e) fr
  end →
  wp (NamedTemporaryFile env suffix) Q fr.
Proof. unfold wp, NamedTemporaryFile. by destruct (mkstemp _ _ _). Qed.

Lemma wp_copyfileobj env src path (Q : outcome unit → Frame → Prop) fr :
  match copyfileobj_exn env with
  | Some e => Q (Raise e) fr
  | None => Q (Return tt) (set_files (<[path := src]> (files (world fr))) fr)
  end →
  wp (copyfileobj env src path) Q fr.
Proof. unfold wp, copyfileobj. by destruct (copyfileobj_exn env). Qed.

Lemma wp_open_rb p content (Q : outcome (list byte) → Frame → Prop) fr :
  files (world fr) !! p = Some content →
  Q (Return content) fr →
  wp (open_rb (Some p)) Q fr.
Proof. unfold wp, open_rb. by intros ->. Qed.

Lemma wp_path_exists p (Q : outcome bool → Frame → Prop) fr :
  Q (Return (bool_decide (is_Some (files (world fr) !! p)))) fr →
  wp (path_exists p) Q fr.
Proof. done. Qed.

Lemma wp_unlink p content (Q : outcome unit → Frame → Prop) fr :
  files (world fr) !! p = Some content →
  Q (Return tt) (set_files (delete p (files (world fr))) fr) →
  wp (unlink p) Q fr.
Proof. unfold wp, unlink. by intros ->. Qed.

Lemma wp_imagekit_upload env content name
    (Q : outcome UploadFileResult.t → Frame → Prop) fr :
  match imagekit_upload_file env with
  | Return upload_result =>
      if (status upload_result =? 200)%Z then Q (Return upload_result) fr
      else Q (Raise (PyException (fst (imagekit_error env))
                       (snd (imagekit_error env)))) fr
  | Raise e => Q (Raise e) fr
  end →
  wp (imagekit_upload env content name) Q fr.
Proof.
  unfold wp, imagekit_upload.
  destruct (imagekit_upload_file env) as [upload_result|e]; [|done].
  by destruct (status upload_result =? 200)%Z.
Qed.

Lemma wp_session_commit env (Q : outcome unit → Frame → Prop) fr :
  match commit_exn env with
  | Some e => Q (Raise e) fr
  | None =>
      match insert_rows (uuid4 env) (utcnow env) (session_new fr) (posts (world fr)) with
      | None => Q (Raise (PyException "IntegrityError" (integrity_error env))) fr
      | Some table =>
          Q (Return tt)
            (set_session [] [] (set_posts (delete_rows (session_deleted fr) table) fr))
      end
  end →
  wp (session_commit env) Q fr.
Proof.
  unfold wp, session_commit. destruct (commit_exn env); [done|].
  by destruct (insert_rows _ _ _ _).
Qed.

Lemma wp_session_refresh env (Q : outcome Post.t → Frame → Prop) fr :
  match refresh_exn env with
  | Some e => Q (Raise e) fr
  | None =>
      match List.find (λ r, Post.id r =? uuid4 env)%N (posts (world fr)) with
      | Some row => Q (Return row) fr
      | None =>
          Q (Raise (PyException "InvalidRequestError" "Could not refresh instance")) fr
      end
  end →
  wp (session_refresh env) Q fr.
Proof.
  unfold wp, session_refresh. destruct (refresh_exn env); [done|].
  by destruct (List.find _ _).
Qed.
End wp_operations.

(** *** Facts about the collaborators *)

Lemma open_refuses_Exception dir name e :
  open_refuses dir name = Some e → is_Exception e = true.
Proof. unfold open_refuses. repeat case_match; by intros [= <-]. Qed.

(** What the loop of [tempfile] raises is an [Exception]. *)
Lemma mkstemp_inner_raises env suffix fs i attempts e :
  mkstemp_inner env suffix fs i attempts = Raise e → is_Exception e = true.
Proof.
  revert i. induction attempts as [|attempts IH]; intros i; cbn [mkstemp_inner].
  - by intros [= <-].
  - destruct (open_refuses _ _) as [e'|] eqn:Hopen.
    + intros [= <-]. by eapply open_refuses_Exception.
    + destruct (fs !! candidate env suffix i); [apply IH|done].
Qed.

(** What it returns is one of the candidate paths, a path that does not
    exist and that [os.open] accepts. *)
Lemma mkstemp_inner_returns env suffix fs i attempts f :
  mkstemp_inner env suffix fs i attempts = Return f →
  ∃ j, f = candidate env suffix j ∧ fs !! f = None ∧
       open_refuses gettempdir ("tmp" +:+ random_names env j +:+ suffix) = None.
Proof.
  revert i. induction attempts as [|attempts IH]; intros i; cbn [mkstemp_inner];
    [done|].
  destruct (open_refuses _ _) as [e'|] eqn:Hopen; [done|].
  destruct (fs !! candidate env suffix i) eqn:Hfree; [apply IH|].
  intros [= <-]. eauto.
Qed.

(** A temporary name is a path under the temporary directory, so it is
    not the empty string, and it names no existing file. *)
Lemma mkstemp_name_fresh env suffix fs f :
  mkstemp_name env suffix fs = Some f → fs !! f = None ∧ String.eqb f "" = false.
Proof.
  unfold mkstemp_name, mkstemp. generalize TMP_MAX. intros attempts.
  destruct (mkstemp_inner _ _ _ _ _) as [f'|] eqn:Hf; [|done]. intros [= ->].
  apply mkstemp_inner_returns in Hf as (j & -> & Hfree & _). split; [done|].
  reflexivity.
Qed.

Lemma delete_rows_nil table : delete_rows [] table = table.
Proof.
  unfold delete_rows. induction table as [|r table IH]; simpl in *; congruence.
Qed.

(** A row appended under a primary key that was free is the one a lookup
    by that key finds. *)
Lemma find_appended id (table : list Post.t) row :
  existsb (λ r, Post.id r =? id)%N table = false →
  Post.id row = id →
  List.find (λ r, Post.id r =? id)%N (table ++ [row]) = Some row.
Proof.
  intros Hfree Hid. induction table as [|r table IH]; simpl in *.
  - by rewrite Hid, N.eqb_refl.
  - apply orb_false_iff in Hfree as [-> Hfree]. auto.
Qed.

(** ** The upload *)

Ltac staged_done :=
  unfold staged;
  match goal with H : staged_path _ _ _ = _ |- _ => rewrite H end;
  simpl; split; [reflexivity|];
  first [ reflexivity
        | split_and!; [assumption | assumption
                      | eexists; first [reflexivity | apply insert_insert_eq]] ].
Ltac outcome_done :=
  unfold upload_outcome;
  repeat match goal with
         | H : _ = _ |- _ => rewrite H
         end;
  simpl; unfold caught;
  repeat match goal with
         | H : _ = _ |- _ => rewrite H
         end;
  done.

(** The staging ends with a path exactly when the call has a temporary
    file, and what it raises is an [Exception]. *)
Lemma staging_staged_path env file w p :
  staging env file w = Return p ↔ staged_path env file w = Some p.
Proof.
  unfold staging, staged_path, mkstemp_name.
  destruct (UploadFile.filename file); [|done].
  destruct (mkstemp _ _ _); split; congruence.
Qed.

Lemma staging_raises env file w e :
  staging env file w = Raise e →
  staged_path env file w = None ∧ is_Exception e = true.
Proof.
  unfold staging, staged_path, mkstemp_name.
  destruct (UploadFile.filename file); [|by intros [= <-]].
  destruct (mkstemp _ _ _) as [f|e'] eqn:Hf; [done|]. intros [= <-].
  split; [done|]. by apply mkstemp_inner_raises in Hf.
Qed.

Lemma staged_path_fresh env file w p :
  staged_path env file w = Some p → files w !! p = None ∧ String.eqb p "" = false.
Proof.
  unfold staged_path. destruct (UploadFile.filename file); [|done].
  apply mkstemp_name_fresh.
Qed.

(** The [try] block with its [except] clause, step by step: where the
    staging stands, what is returned or raised, and what has been done
    to the tables, on each way out. *)
Lemma upload_try_run env file caption user w :
  wp (try_except (upload_try env file caption user) reraise_500)
    (λ r fr', staged env file w fr' ∧
              r = fst (upload_outcome env file caption user w) ∧
              posts (world fr') = posts (snd (upload_outcome env file caption user w)) ∧
              users (world fr') = users w)
    (mkFrame w [] [] None).
Proof.
  apply wp_try_except. unfold upload_try. apply wp_bind.
  destruct (staging env file w) as [f|e0] eqn:Hstaging.
  2:{ pose proof (staging_raises _ _ _ _ Hstaging) as [Hstaged He0].
      pose proof Hstaging as Hmk. unfold staging in Hmk.
      destruct (UploadFile.filename file) as [filename|] eqn:Hname.
      - apply wp_ret, wp_bind, wp_NamedTemporaryFile. simpl. rewrite Hmk, He0.
        apply wp_raise. split; [staged_done|outcome_done].
      - injection Hmk as <-. apply wp_raise. simpl. apply wp_raise.
        split; [staged_done|outcome_done]. }
  pose proof Hstaging as Hstaged. apply staging_staged_path in Hstaged.
  pose proof (staged_path_fresh _ _ _ _ Hstaged) as [Hfree Hne].
  pose proof Hstaging as Hmk. unfold staging in Hmk.
  destruct (UploadFile.filename file) as [filename|] eqn:Hname; [|done].
  apply wp_ret, wp_bind, wp_NamedTemporaryFile. simpl. rewrite Hmk. clear Hmk.
  apply wp_bind, wp_modify, wp_bind, wp_copyfileobj.
  destruct (copyfileobj_exn env) as [e|] eqn:Hcopy.
  { destruct (is_Exception e) eqn:He; [apply wp_raise|];
      (split; [staged_done|outcome_done]). }
  apply wp_bind, wp_get_temp_file_path. simpl.
  eapply wp_bind, wp_open_rb. { simpl. apply lookup_insert_eq. }
  apply wp_bind, wp_imagekit_upload.
  destruct (imagekit_upload_file env) as [upload_result|e] eqn:Hupload.
  2:{ destruct (is_Exception e) eqn:He; [apply wp_raise|];
        (split; [staged_done|outcome_done]). }
  destruct (status upload_result =? 200)%Z eqn:Hstatus.
  2:{ simpl. apply wp_raise. split; [staged_done|outcome_done]. }
  fold (status upload_result). rewrite Hstatus.
  apply wp_bind.
  destruct (UploadFile.content_type file) as [content_type|] eqn:Htype.
  2:{ apply wp_raise. simpl. apply wp_raise. split; [staged_done|outcome_done]. }
  apply wp_ret, wp_bind, wp_modify, wp_bind, wp_session_commit.
  destruct (commit_exn env) as [e|] eqn:Hcommit.
  { destruct (is_Exception e) eqn:He; [apply wp_raise|];
      (split; [staged_done|outcome_done]). }
  simpl.
  destruct (existsb _ (posts w)) eqn:Hkey.
  { apply wp_raise. split; [staged_done|outcome_done]. }
  rewrite delete_rows_nil.
  apply wp_bind, wp_session_refresh.
  destruct (refresh_exn env) as [e|] eqn:Hrefresh.
  { destruct (is_Exception e) eqn:He; [apply wp_raise|];
      (split; [staged_done|outcome_done]). }
  simpl. erewrite find_appended by (exact Hkey || reflexivity).
  apply wp_ret. split; [staged_done|outcome_done].
Qed.

(** The [finally] block removes the staged file, if there is one, and
    touches nothing else. *)
Lemma upload_finally_spec env file w fr (Q : outcome unit → Frame → Prop) :
  staged env file w fr →
  (∀ fr', files (world fr') = files w → posts (world fr') = posts (world fr) →
          users (world fr') = users (world fr) → Q (Return tt) fr') →
  wp upload_finally Q fr.
Proof.
  intros [Htemp Hstaged] HQ. unfold upload_finally.
  apply wp_bind, wp_get_temp_file_path. rewrite Htemp.
  destruct (staged_path env file w) as [p|].
  - destruct Hstaged as (-> & Hfree & content & Hfiles).
    simpl. apply wp_bind, wp_path_exists.
    rewrite Hfiles, lookup_insert_eq, bool_decide_eq_true_2 by eauto.
    eapply wp_unlink; [by rewrite Hfiles, lookup_insert_eq|].
    apply HQ; [|done..]. simpl.
    rewrite Hfiles, delete_insert_eq. by apply delete_id.
  - apply wp_ret. auto.
Qed.

Lemma world_eq w1 w2 :
  files w1 = files w2 → posts w1 = posts w2 → users w1 = users w2 → w1 = w2.
Proof. destruct w1, w2. simpl. by intros -> -> ->. Qed.

(** The table of exits leaves the files and the users as they were. *)
Lemma upload_outcome_frame env file caption user w :
  files (snd (upload_outcome env file caption user w)) = files w ∧
  users (snd (upload_outcome env file caption user w)) = users w.
Proof. unfold upload_outcome. repeat case_match; done. Qed.

(** The handler is its table of exits. *)
Lemma upload_file_run env file caption user w :
  request (upload_file env file caption user) w
  = upload_outcome env file caption user w.
Proof.
  assert (wp (upload_file env file caption user)
            (λ r fr', (r, world fr') = upload_outcome env file caption user w)
            (mkFrame w [] [] None)) as Hwp.
  { unfold upload_file. apply wp_bind, wp_modify, wp_try_finally.
    eapply wp_mono; [apply upload_try_run|].
    intros r0 fr' (Hstaged & -> & Hposts & Husers).
    apply (upload_finally_spec env file w); [done|].
    intros fr'' Hfiles' Hposts' Husers'.
    destruct (upload_outcome_frame env file caption user w) as [Hf Hu].
    rewrite (surjective_pairing (upload_outcome env file caption user w)).
    simpl in *. f_equal. apply world_eq; congruence. }
  unfold request, wp in *.
  by destruct (upload_file env file caption user _) as [r0 fr'].
Qed.

Lemma caught_is_500 e :
  (∃ detail, caught e = HTTPException 500 detail) ∨ is_Exception (caught e) = false.
Proof. unfold caught. destruct (is_Exception e) eqn:He; eauto. Qed.

(** Exit by exit, the table is as [upload_exit] says. *)
Lemma upload_outcome_exit env file caption user w :
  upload_exit env file caption user w
    (fst (upload_outcome env file caption user w))
    (snd (upload_outcome env file caption user w)).
Proof.
  unfold upload_outcome, upload_exit.
  destruct (staging env file w) as [p|e] eqn:Hstaging.
  2:{ apply staging_raises in Hstaging as [Hnone _]. simpl.
      split_and!; [done|apply caught_is_500|by left|by left]. }
  destruct (copyfileobj_exn env) as [e|] eqn:Hcopy.
  { simpl. split_and!; [done|apply caught_is_500| |by left].
    unfold raise_cause. rewrite Hcopy. eauto. }
  destruct (imagekit_upload_file env) as [upload_result|e] eqn:Hupload.
  2:{ simpl. split_and!; [done|apply caught_is_500| |by left].
      unfold raise_cause. eauto 6. }
  destruct (status upload_result =? 200)%Z eqn:Hstatus.
  2:{ apply Z.eqb_neq in Hstatus. simpl. split_and!; [done|eauto| |by left].
      unfold raise_cause. eauto 8. }
  apply Z.eqb_eq in Hstatus.
  assert (∀ reason : Prop,
            UploadFile.content_type file = None ∨ is_Some (commit_exn env) ∨
            existsb (λ r, Post.id r =? uuid4 env)%N (posts w) = true ∨
            is_Some (refresh_exn env) →
            raise_cause env file w) as Hcause.
  { intros _ Hwhy. unfold raise_cause. do 4 right. eauto. }
  destruct (UploadFile.content_type file) as [content_type|] eqn:Htype.
  2:{ simpl. split_and!; [done|eauto|apply (Hcause True); eauto|by left]. }
  destruct (commit_exn env) as [e|] eqn:Hcommit.
  { simpl. split_and!; [done|apply caught_is_500|apply (Hcause True); eauto|by left]. }
  destruct (existsb _ (posts w)) eqn:Hkey.
  { simpl. split_and!; [done|eauto|apply (Hcause True); eauto|by left]. }
  match goal with
  | |- context [with_post w ?row] =>
      assert (created_post env file caption user row) as Hcreated
        by (unfold created_post; eauto 8)
  end.
  destruct (refresh_exn env) as [e|] eqn:Hrefresh.
  { simpl. split_and!; [done|apply caught_is_500|apply (Hcause True); eauto|].
    right. eauto. }
  simpl. by split_and!.
Qed.

(** The [try] block with its [except] clause: where the staging stands
    and what has been done to the tables, on each way out. *)
Lemma upload_try_spec env file caption user w :
  wp (try_except (upload_try env file caption user) reraise_500)
    (λ r fr', staged env file w fr' ∧
              upload_exit env file caption user w r (world fr'))
    (mkFrame w [] [] None).
Proof.
  eapply wp_mono; [apply upload_try_run|].
  intros r fr' (Hstaged & -> & Hposts & Husers). split; [done|].
  pose proof (upload_outcome_exit env file caption user w) as Hexit.
  unfold upload_exit in *. destruct Hexit as [_ Hexit].
  split; [done|]. by rewrite Hposts.
Qed.

(** When the [finally] block is entered, the temporary file of the call
    is there. *)
Lemma upload_try_stages env file caption user w p :
  staged_path env file w = Some p →
  wp (try_except (upload_try env file caption user) reraise_500)
    (λ _ fr', temp_file_path fr' = Some p ∧ is_Some (files (world fr') !! p))
    (mkFrame w [] [] None).
Proof.
  intros Hp. eapply wp_mono; [apply upload_try_spec|].
  intros r fr' [[Htemp Hstaged] _]. rewrite Hp in Htemp, Hstaged.
  destruct Hstaged as (_ & _ & content & ->). by rewrite lookup_insert_eq.
Qed.

(** Every run of the handler: the files are those it started with, and
    the tables are as [upload_exit] says. *)
Lemma upload_file_exit env file caption user w r w' :
  request (upload_file env file caption user) w = (r, w') →
  files w' = files w ∧ upload_exit env file caption user w r w'.
Proof.
  rewrite upload_file_run. intros Hrun.
  pose proof (upload_outcome_exit env file caption user w) as Hexit.
  destruct (upload_outcome_frame env file caption user w) as [Hf _].
  rewrite Hrun in Hexit, Hf. done.
Qed.

(** When every collaborator does its part and the media store answers
    200, the handler does return the post, and the world is the old one
    with that post at the end of the table. *)
Lemma upload_succeeds env file caption user w p upload_result content_type :
  staged_path env file w = Some p →
  copyfileobj_exn env = None →
  imagekit_upload_file env = Return upload_result →
  status upload_result = 200%Z →
  UploadFile.content_type file = Some content_type →
  commit_exn env = None →
  existsb (λ r, Post.id r =? uuid4 env)%N (posts w) = false →
  refresh_exn env = None →
  let post :=
    Post.mk (uuid4 env) (User.id user) caption (UploadFileResult.url upload_result)
      (if startswith "video/" content_type then "video" else "image")
      (UploadFileResult.name upload_result) (utcnow env) in
  request (upload_file env file caption user) w
  = (Return (Some post), mkWorld (files w) (posts w ++ [post]) (users w)).
Proof.
  intros Hp%staging_staged_path Hcopy Hupload Hstatus%Z.eqb_eq Htype Hcommit Hkey
    Hrefresh post.
  rewrite upload_file_run. unfold upload_outcome.
  by rewrite Hp, Hcopy, Hupload, Hstatus, Htype, Hcommit, Hkey, Hrefresh.
Qed.

(** [s.startswith(p)] says that [s] is [p] followed by something. *)
Lemma startswith_spec p s : startswith p s = true ↔ ∃ rest, s = p +:+ rest.
Proof.
  unfold startswith. revert s. induction p as [|c p IH]; intros s.
  - destruct s; simpl; split; eauto.
  - destruct s as [|c' s]; simpl.
    + split; [done|]. by intros [rest ?].
    + destruct (ascii_dec c c') as [->|Hne].
      * rewrite IH. split; intros [rest Hrest]; exists rest.
        -- rewrite Hrest. reflexivity.
        -- change (String c' s = String c' (p +:+ rest)) in Hrest. congruence.
      * split; [done|]. intros [rest Hrest].
        change (String c' s = String c (p +:+ rest)) in Hrest. congruence.
Qed.

(** C4: on every way out of the upload (a post returned, an exception of
    any kind), the temporary file the call staged the upload in does not
    exist any more; the files are those there were before the call. *)
Theorem upload_removes_temp_file env file caption user w p r w' :
  staged_path env file w = Some p →
  POST_upload env file caption user w = (r, w') →
  files w' !! p = None ∧ files w' = files w.
Proof.
  intros Hp Hrun. apply upload_file_exit in Hrun as [Hfiles _].
  unfold staged_path in Hp. destruct (UploadFile.filename file); [|done].
  apply mkstemp_name_fresh in Hp as [Hfree _]. by rewrite Hfiles.
Qed.

Lemma upload_removes_temp_file_witness :
  files (snd (POST_upload (env_status 200 7) cat_png (Some "hi") alice w_empty))
    !! "/tmp/tmpk3v9_x0a.png" = None.
Proof.
  eapply (upload_removes_temp_file (env_status 200 7) cat_png (Some "hi") alice
            w_empty "/tmp/tmpk3v9_x0a.png").
  - vm_compute. reflexivity.
  - apply surjective_pairing.
Defined.

(** C5: an upload that returns a post has added exactly that post to the
    table; its [user_id] is the caller's id, its caption is the one given
    (empty when the form has none), and its [url] and [file_name] are
    those of the media store's answer. *)
Theorem upload_creates_one_post env file caption user w post w' :
  POST_upload env file caption user w = (Return (Some post), w') →
  posts w' = (posts w ++ [post])%list ∧
  Post.user_id post = User.id user ∧
  Post.caption post = default "" caption ∧
  ∃ upload_result,
    imagekit_upload_file env = Return upload_result ∧
    Post.url post = UploadFileResult.url upload_result ∧
    Post.file_name post = UploadFileResult.name upload_result.
Proof.
  intros Hrun. apply upload_file_exit in Hrun as (_ & _ & Hcreated & Hposts).
  destruct Hcreated as (upload_result & content_type & Hupload & _ & _ & ->).
  simpl. eauto 8.
Qed.

Lemma upload_creates_one_post_witness :
  posts (snd (POST_upload (env_status 200 7) cat_png None alice w_empty))
  = [Post.mk 7 1 "" "https://ik.example/cat_Q1.png" "image" "cat_Q1.png" noon].
Proof.
  eapply (upload_creates_one_post (env_status 200 7) cat_png None alice w_empty).
  vm_compute. reflexivity.
Defined.

(** C6: whenever an upload adds a post to the table, the [file_type] of
    that post is ["video"] if and only if the content type of the upload
    starts with ["video/"], and ["image"] otherwise. *)
Theorem upload_file_type env file caption user w r w' post :
  POST_upload env file caption user w = (r, w') →
  posts w' = (posts w ++ [post])%list →
  ∃ content_type,
    UploadFile.content_type file = Some content_type ∧
    (Post.file_type post = "video" ↔ ∃ rest, content_type = "video/" +:+ rest) ∧
    (Post.file_type post = "image" ↔ ¬ ∃ rest, content_type = "video/" +:+ rest).
Proof.
  intros Hrun Hposts. apply upload_file_exit in Hrun as (_ & _ & Hexit).
  assert (created_post env file (default "" caption) user post) as Hcreated.
  { destruct r as [[post'|]|e].
    - destruct Hexit as [Hcreated Hposts']. rewrite Hposts in Hposts'.
      by apply app_inv_head in Hposts' as [= ->].
    - destruct Hexit.
    - destruct Hexit as (_ & _ & [Hposts'|(post' & Hcreated & Hposts')]);
        rewrite Hposts in Hposts'.
      + apply (f_equal length) in Hposts'. rewrite length_app in Hposts'.
        simpl in Hposts'. lia.
      + by apply app_inv_head in Hposts' as [= ->]. }
  destruct Hcreated as (upload_result & content_type & _ & _ & Htype & ->).
  exists content_type. split; [done|]. simpl.
  rewrite <- startswith_spec. destruct (startswith "video/" content_type); naive_solver.
Qed.

Lemma upload_file_type_witness :
  ∃ content_type,
    UploadFile.content_type clip_mp4 = Some content_type ∧
    ("video" = "video" ↔ ∃ rest, content_type = "video/" +:+ rest) ∧
    ("video" = "image" ↔ ¬ ∃ rest, content_type = "video/" +:+ rest).
Proof.
  eapply (upload_file_type (env_status 200 7) clip_mp4 (Some "hi") alice w_empty _ _
            (Post.mk 7 1 "hi" "https://ik.example/cat_Q1.png" "video" "cat_Q1.png" noon)).
  - apply surjective_pairing.
  - vm_compute. reflexivity.
Defined.
(** C1: whenever the media store answers the upload with a status that
    is not 200, and the copy of the upload into the temporary file has
    not failed before, the handler raises the [HTTPException] with status
    500, and the world is as it was: no post has been created, and no
    file is left. *)
Theorem upload_store_failure_is_500 env file caption user w upload_result :
  copyfileobj_exn env = None →
  imagekit_upload_file env = Return upload_result →
  status upload_result ≠ 200%Z →
  ∃ detail,
    POST_upload env file caption user w = (Raise (HTTPException 500 detail), w).
Proof.
  intros Hcopy Hupload Hstatus%Z.eqb_neq. unfold POST_upload.
  rewrite upload_file_run. unfold upload_outcome.
  destruct (staging env file w) as [p|e] eqn:Hstaging.
  - rewrite Hcopy, Hupload, Hstatus. eauto.
  - apply staging_raises in Hstaging as [_ He]. unfold caught. rewrite He. eauto.
Qed.

Lemma upload_store_failure_is_500_witness :
  ∃ detail,
    POST_upload (env_status 403 7) cat_png (Some "hi") alice w_empty
    = (Raise (HTTPException 500 detail), w_empty).
Proof.
  apply (upload_store_failure_is_500 (env_status 403 7) cat_png (Some "hi") alice
           w_empty (stored "https://ik.example/cat_Q1.png" "cat_Q1.png" 403)).
  - reflexivity.
  - reflexivity.
  - vm_compute. discriminate.
Defined.




(** In no run at all does the handler return the null result. *)
Lemma upload_never_returns_null env file caption user w r w' :
  POST_upload env file caption user w = (Return r, w') → is_Some r.
Proof.
  intros Hrun. apply upload_file_exit in Hrun as (_ & _ & Hexit).
  destruct r as [post|]; [by eexists|done].
Qed.

(** ** The feed *)

(** *** The order of [datetime] *)

Lemma datetime_lex_antisym a b : datetime.lex b a = CompOpp (datetime.lex a b).
Proof.
  revert b. induction a as [|x a IH]; intros [|y b]; simpl; try done.
  rewrite (N.compare_antisym x y). destruct (x ?= y)%N; simpl; auto.
Qed.

Lemma datetime_lex_eq a b : datetime.lex a b = Eq → a = b.
Proof.
  revert b. induction a as [|x a IH]; intros [|y b]; simpl; try done.
  destruct (x ?= y)%N eqn:Hxy; try done.
  apply N.compare_eq in Hxy as ->. by intros ->%IH.
Qed.

Lemma datetime_lex_trans a b c :
  datetime.lex a b ≠ Gt → datetime.lex b c ≠ Gt → datetime.lex a c ≠ Gt.
Proof.
  revert b c. induction a as [|x a IH]; intros [|y b] [|z c]; simpl; try done.
  destruct (x ?= y)%N eqn:Hxy, (y ?= z)%N eqn:Hyz; try done.
  - apply N.compare_eq in Hxy as ->. rewrite Hyz. apply IH.
  - apply N.compare_eq in Hxy as ->. by rewrite Hyz.
  - apply N.compare_eq in Hyz as <-. by rewrite Hxy.
  - rewrite N.compare_lt_iff in Hxy, Hyz.
    assert ((x ?= z)%N = Lt) as -> by (apply N.compare_lt_iff; lia). done.
Qed.

Lemma datetime_compare_eq d1 d2 : datetime.compare d1 d2 = Eq → d1 = d2.
Proof.
  intros Heq%datetime_lex_eq. destruct d1, d2. unfold datetime.key in Heq.
  simpl in Heq. congruence.
Qed.

Global Instance not_older_total : Total not_older.
Proof.
  intros a b. unfold not_older, datetime.leb, datetime.compare.
  rewrite (datetime_lex_antisym (datetime.key (Post.created_at b))).
  destruct (datetime.lex _ _); simpl; auto.
Qed.

Global Instance not_older_trans : Transitive not_older.
Proof.
  intros a b c. unfold not_older, datetime.leb, datetime.compare.
  pose proof (datetime_lex_trans (datetime.key (Post.created_at c))
                (datetime.key (Post.created_at b)) (datetime.key (Post.created_at a))).
  repeat destruct (datetime.lex _ _); naive_solver.
Qed.

(** Of two posts created at different times, the one that is not older
    is newer. *)
Lemma not_older_newer a b :
  not_older a b → Post.created_at a ≠ Post.created_at b → newer a b.
Proof.
  unfold not_older, newer, datetime.leb, datetime.ltb. intros Hle Hne.
  destruct (datetime.compare _ _) eqn:Hcmp; try done.
  by apply datetime_compare_eq in Hcmp.
Qed.

Lemma sorted_distinct_strict (l : list Post.t) :
  StronglySorted not_older l → NoDup (Post.created_at <$> l) → StronglySorted newer l.
Proof.
  induction 1 as [|a l Hsorted IH Hhead]; intros Hnodup; [constructor|].
  rewrite fmap_cons in Hnodup. apply NoDup_cons in Hnodup as [Hfresh Hnodup].
  constructor; [auto|].
  rewrite Forall_forall in Hhead |- *.
  intros b Hb. apply not_older_newer; [auto|].
  intros Heq. apply Hfresh. rewrite Heq. apply list_elem_of_fmap. eauto.
Qed.

(** *** The handler *)

(** The loop that appends one entry per post builds the list of the
    entries. *)
Lemma append_loop_fmap {A B} (f : A → B) (l : list A) (acc : list B) :
  foldl (λ acc x, acc ++ [f x])%list acc l = (acc ++ (f <$> l))%list.
Proof.
  revert acc. induction l as [|x l IH]; intros acc; simpl.
  - by rewrite app_nil_r.
  - by rewrite IH, <- app_assoc.
Qed.

(** The feed is always returned, changes nothing, and holds the entries
    of the posts in the order of the query. *)
Lemma get_feed_run user w :
  GET_feed user w
  = (Return [("posts", post_data user (user_dict (users w))
                         <$> merge_sort not_older (posts w))], w).
Proof.
  unfold GET_feed, request, get_feed, bind, select_posts_desc, select_users, ret.
  simpl. by rewrite append_loop_fmap.
Qed.

(** C7: when the stored posts have pairwise distinct [created_at], the
    feed returns the entries of exactly these posts, each entry that of a
    post created after the posts of all the entries behind it. *)
Theorem feed_sorted_by_created_at_desc user w :
  NoDup (Post.created_at <$> posts w) →
  ∃ feed,
    GET_feed user w
    = (Return [("posts", post_data user (user_dict (users w)) <$> feed)], w) ∧
    feed ≡ₚ posts w ∧
    StronglySorted newer feed.
Proof.
  intros Hdistinct. exists (merge_sort not_older (posts w)).
  split; [apply get_feed_run|].
  split; [apply merge_sort_Permutation|].
  apply sorted_distinct_strict; [apply (StronglySorted_merge_sort _)|].
  by rewrite merge_sort_Permutation.
Qed.

Lemma feed_sorted_by_created_at_desc_witness :
  ∃ feed,
    GET_feed alice w_three
    = (Return [("posts", post_data alice (user_dict (users w_three)) <$> feed)],
       w_three) ∧
    feed ≡ₚ posts w_three ∧
    StronglySorted newer feed.
Proof.
  apply (feed_sorted_by_created_at_desc alice w_three).
  apply (bool_decide_unpack _). vm_compute. exact I.
Defined.

(** C8: in every feed response, entry by entry, [is_owner] is true if
    and only if the [user_id] of the post of that entry is the id of the
    caller. *)
Theorem feed_is_owner user w :
  ∃ feed posts_data,
    GET_feed user w = (Return [("posts", posts_data)], w) ∧
    feed ≡ₚ posts w ∧
    Forall2 (λ post entry,
      dict_get "id" entry = Some (VStr (uuid_str (Post.id post))) ∧
      ∃ is_owner,
        dict_get "is_owner" entry = Some (VBool is_owner) ∧
        (is_owner = true ↔ Post.user_id post = User.id user)) feed posts_data.
Proof.
  exists (merge_sort not_older (posts w)),
    (post_data user (user_dict (users w)) <$> merge_sort not_older (posts w)).
  split; [apply get_feed_run|].
  split; [apply merge_sort_Permutation|].
  apply Forall2_fmap_r, Forall_Forall2_diag, Forall_forall.
  intros post _. split; [done|]. eexists. split; [done|]. apply N.eqb_eq.
Qed.

(** ** The deletion *)

Ltac run_delete :=
  unfold DELETE_post, request, delete_post, try_except, bind, of_outcome,
    select_post, session_delete, session_commit, modify, raise, ret, reraise_500;
  simpl.

(** The [raise] of the 404 is inside the [try], and [HTTPException] is an
    [Exception]: the [except] clause catches it and raises a 500 whose
    detail is the text of the 404. *)
Lemma delete_post_not_found env post_id user w post_uuid :
  UUID post_id = Return post_uuid →
  List.find (λ r, Post.id r =? post_uuid)%N (posts w) = None →
  DELETE_post env post_id user w
  = (Raise (HTTPException 500 "404: Post not found"), w).
Proof. intros Hid Hfind. run_delete. by rewrite Hid, Hfind. Qed.

(** The same happens to the 403. *)
Lemma delete_post_not_owner env post_id user w post_uuid post :
  UUID post_id = Return post_uuid →
  List.find (λ r, Post.id r =? post_uuid)%N (posts w) = Some post →
  Post.user_id post ≠ User.id user →
  DELETE_post env post_id user w
  = (Raise (HTTPException 500 "403: You dont have permission to delete this post"), w).
Proof.
  intros Hid Hfind Hother. run_delete. rewrite Hid, Hfind.
  apply N.eqb_neq in Hother. by rewrite Hother.
Qed.

(** The owner's delete removes the rows with the id of the post and
    returns the acknowledgment as the handler spells it. *)
Lemma delete_post_own env post_id user w post_uuid post :
  UUID post_id = Return post_uuid →
  List.find (λ r, Post.id r =? post_uuid)%N (posts w) = Some post →
  Post.user_id post = User.id user →
  commit_exn env = None →
  DELETE_post env post_id user w
  = (Return [("success", VBool true); ("messsage", VStr "Post deleted successfully")],
     mkWorld (files w) (delete_rows [post] (posts w)) (users w)).
Proof.
  intros Hid Hfind Hown Hcommit. run_delete. rewrite Hid, Hfind.
  apply N.eqb_eq in Hown. by rewrite Hown, Hcommit.
Qed.

(** Whatever the request, an error the handler answers with is a 500:
    neither the 404 nor the 403 leaves it. *)
Lemma delete_post_error_is_500 env post_id user w e w' :
  DELETE_post env post_id user w = (Raise e, w') →
  (∃ detail, e = HTTPException 500 detail) ∨ is_Exception e = false.
Proof.
  run_delete. destruct (UUID post_id) as [post_uuid|e0]; simpl.
  - destruct (List.find _ _) as [post|]; simpl; [|naive_solver].
    destruct (Post.user_id post =? User.id user)%N; simpl; [|naive_solver].
    destruct (commit_exn env) as [e1|]; simpl; [|naive_solver].
    destruct (is_Exception e1) eqn:He1; naive_solver.
  - destruct (is_Exception e0) eqn:He0; naive_solver.
Qed.

(** C2, at a failing input: Bob asks to delete post 7, which is Alice's.
    The post stays, as the claim says, but the error that leaves the
    handler is a 500 whose detail quotes the 403, not the 403. *)
Theorem delete_by_other_user_is_500 :
  DELETE_post (env_status 200 0) "00000000-0000-0000-0000-000000000007" bob w_one
  = (Raise (HTTPException 500 "403: You dont have permission to delete this post"),
     w_one).
Proof.
  apply (delete_post_not_owner _ _ _ _ 7 (post_of 7 1 noon)); [reflexivity..|].
  discriminate.
Qed.

(** C3, at a failing input: Alice asks to delete post 8, a well-formed
    identifier of no post.  The error that leaves the handler is a 500
    whose detail quotes the 404, not the 404. *)
Theorem delete_missing_post_is_500 :
  DELETE_post (env_status 200 0) "00000000-0000-0000-0000-000000000008" alice w_one
  = (Raise (HTTPException 500 "404: Post not found"), w_one).
Proof. by apply (delete_post_not_found _ _ _ _ 8). Qed.

(** C9, at a failing input: Alice deletes her post 7.  The post is
    removed, and the acknowledgment has the key ["messsage"]: it is not
    the object of the claim, and it has nothing under ["message"]. *)
Theorem delete_ack_key_is_misspelt :
  ∃ ack,
    DELETE_post (env_status 200 0) "00000000-0000-0000-0000-000000000007" alice w_one
    = (Return ack, w_empty) ∧
    ack = [("success", VBool true); ("messsage", VStr "Post deleted successfully")] ∧
    ack ≠ [("success", VBool true); ("message", VStr "Post deleted successfully")] ∧
    dict_get "message" ack = None.
Proof.
  eexists. split.
  - rewrite (delete_post_own _ _ _ _ 7 (post_of 7 1 noon)) by done. reflexivity.
  - by split_and!.
Qed.

(** ** The handlers at work *)

Example splitext_png : splitext "cat.png" = ("cat", ".png").
Proof. reflexivity. Qed.

Example splitext_dotfile : splitext "uploads/.profile" = ("uploads/.profile", "").
Proof. reflexivity. Qed.

Example UUID_canonical :
  UUID "12345678-1234-5678-1234-567812345678"
  = Return 0x12345678123456781234567812345678%N.
Proof. vm_compute. reflexivity. Qed.

Example UUID_urn :
  UUID "{urn:uuid:12345678123456781234567812345678}"
  = Return 0x12345678123456781234567812345678%N.
Proof. vm_compute. reflexivity. Qed.

Example uuid_str_canonical :
  uuid_str 0x12345678123456781234567812345678
  = "12345678-1234-5678-1234-567812345678".
Proof. vm_compute. reflexivity. Qed.

Example isoformat_microseconds :
  datetime.isoformat (datetime.mk 2024 1 5 12 0 0 250) = "2024-01-05T12:00:00.000250".
Proof. vm_compute. reflexivity. Qed.

(** Alice uploads [cat.png] with the caption ["hi"]: the post comes back,
    an image with that caption and the url of the store, and it is the
    one row of the table. *)
Example upload_cat :
  POST_upload (env_status 200 7) cat_png (Some "hi") alice w_empty
  = (Return (Some (post_of 7 1 noon)), w_one).
Proof. vm_compute. reflexivity. Qed.

(** The media store cannot be reached: a 500 carrying the message of the
    exception, no post, no file left. *)
Example upload_store_raises :
  POST_upload env_store_raises cat_png (Some "hi") alice w_empty
  = (Raise (HTTPException 500 "Connection aborted."), w_empty).
Proof. vm_compute. reflexivity. Qed.

(** The id column default draws an id that is taken: a 500, and the
    table is as it was. *)
Example upload_id_taken :
  POST_upload (env_status 200 7) cat_png (Some "hi") alice w_one
  = (Raise (HTTPException 500 "UNIQUE constraint failed: posts.id"), w_one).
Proof. vm_compute. reflexivity. Qed.

(** The feed of the three posts, newest first. *)
Example feed_three :
  match GET_feed bob w_three with
  | (Return [(_, posts_data)], _) =>
      (λ entry, (dict_get "id" entry, dict_get "created_at" entry,
                 dict_get "is_owner" entry, dict_get "email" entry)) <$> posts_data
  | _ => []
  end
  = [ (Some (VStr "00000000-0000-0000-0000-000000000009"),
       Some (VStr "2024-03-01T08:30:00"), Some (VBool true),
       Some (VStr "bob@example.com"));
      (Some (VStr "00000000-0000-0000-0000-000000000008"),
       Some (VStr "2024-01-05T12:00:00.000250"), Some (VBool false),
       Some (VStr "alice@example.com"));
      (Some (VStr "00000000-0000-0000-0000-000000000007"),
       Some (VStr "2024-01-05T12:00:00"), Some (VBool false),
       Some (VStr "alice@example.com")) ].
Proof. vm_compute. reflexivity. Qed.

(** An identifier that is no UUID: the [ValueError] becomes a 500. *)
Example delete_malformed_id :
  DELETE_post (env_status 200 0) "seven" alice w_one
  = (Raise (HTTPException 500 "badly formed hexadecimal UUID string"), w_one).
Proof. vm_compute. reflexivity. Qed.

(** After Alice has deleted her post, the feed is empty. *)
Example delete_then_feed :
  GET_feed bob
    (snd (DELETE_post (env_status 200 0) "00000000-0000-0000-0000-000000000007"
            alice w_one))
  = (Return [("posts", [])], w_empty).
Proof. vm_compute. reflexivity. Qed.

(** The identifier of the same post with the prefix of base 16. *)
Example UUID_prefixed : UUID "0x000000000000000000000000000007" = Return 7%N.
Proof. vm_compute. reflexivity. Qed.

(** The media store answers 403: the client raises, and the answer is
    the 500; no post, no file left. *)
Example upload_store_403 :
  POST_upload (env_status 403 7) cat_png (Some "hi") alice w_empty
  = (Raise (HTTPException 500 "Your request was not accepted."), w_empty).
Proof. vm_compute. reflexivity. Qed.

(** A file name whose extension is too long for the name of a file: no
    temporary file is made, and the answer is the 500. *)
Example upload_long_name :
  ∃ rest,
    POST_upload (env_status 200 7) long_name (Some "hi") alice w_empty
    = (Raise (HTTPException 500
                ("[Errno 36] File name too long: '/tmp/tmpk3v9_x0a.xxx" +:+ rest)),
       w_empty).
Proof. eexists. vm_compute. reflexivity. Qed.

(** ** The exits of the upload, one by one *)

(** X1: when every collaborator does its part and the media store
    answers 200, the upload returns the post: the caller's, with the
    caption of the form (empty without one), the [url] and [file_name] of
    the store's answer, the type read off the content type, and the [id]
    and [created_at] of the column defaults; the post is added at the end
    of the table. *)
Theorem upload_returns_post env file caption user w p upload_result content_type :
  staged_path env file w = Some p →
  copyfileobj_exn env = None →
  imagekit_upload_file env = Return upload_result →
  status upload_result = 200%Z →
  UploadFile.content_type file = Some content_type →
  commit_exn env = None →
  existsb (λ r, Post.id r =? uuid4 env)%N (posts w) = false →
  refresh_exn env = None →
  let post :=
    Post.mk (uuid4 env) (User.id user) (default "" caption)
      (UploadFileResult.url upload_result)
      (if startswith "video/" content_type then "video" else "image")
      (UploadFileResult.name upload_result) (utcnow env) in
  POST_upload env file caption user w = (Return (Some post), with_post w post).
Proof.
  intros Hp%staging_staged_path Hcopy Hupload Hstatus Htype Hcommit Hkey Hrefresh post.
  unfold POST_upload. rewrite upload_file_run. unfold upload_outcome.
  apply Z.eqb_eq in Hstatus.
  by rewrite Hp, Hcopy, Hupload, Hstatus, Htype, Hcommit, Hkey, Hrefresh.
Qed.

Lemma upload_returns_post_witness :
  POST_upload (env_status 200 7) cat_png None alice w_empty
  = (Return (Some (Post.mk 7 1 "" "https://ik.example/cat_Q1.png" "image"
                     "cat_Q1.png" noon)),
     with_post w_empty
       (Post.mk 7 1 "" "https://ik.example/cat_Q1.png" "image" "cat_Q1.png" noon)).
Proof.
  apply (upload_returns_post (env_status 200 7) cat_png None alice w_empty
           "/tmp/tmpk3v9_x0a.png"
           (stored "https://ik.example/cat_Q1.png" "cat_Q1.png" 200) "image/png").
  - vm_compute. reflexivity.
  - reflexivity.
  - reflexivity.
  - reflexivity.
  - reflexivity.
  - reflexivity.
  - reflexivity.
  - reflexivity.
Defined.

(** X2: whatever goes wrong in an upload, the error that leaves the
    handler is the 500; only what is no [Exception] (a cancellation)
    passes as it is. *)
Theorem upload_error_is_500 env file caption user w e w' :
  POST_upload env file caption user w = (Raise e, w') →
  (∃ detail, e = HTTPException 500 detail) ∨ is_Exception e = false.
Proof. intros Hrun. by apply upload_file_exit in Hrun as (_ & _ & ? & _). Qed.

Lemma upload_error_is_500_witness :
  (∃ detail, HTTPException 500 "Connection aborted."
             = HTTPException 500 detail)
  ∨ is_Exception (HTTPException 500 "Connection aborted.") = false.
Proof.
  eapply (upload_error_is_500 env_store_raises cat_png (Some "hi") alice w_empty).
  vm_compute. reflexivity.
Defined.

(** X3: when the media store client raises an [Exception], the caller
    gets the 500 with the text of that exception, and the world is as it
    was: no post, no file. *)
Theorem upload_store_exception env file caption user w p e :
  staged_path env file w = Some p →
  copyfileobj_exn env = None →
  imagekit_upload_file env = Raise e →
  is_Exception e = true →
  POST_upload env file caption user w = (Raise (HTTPException 500 (exn_str e)), w).
Proof.
  intros Hp%staging_staged_path Hcopy Hupload He. unfold POST_upload.
  rewrite upload_file_run. unfold upload_outcome, caught.
  by rewrite Hp, Hcopy, Hupload, He.
Qed.

Lemma upload_store_exception_witness :
  POST_upload env_store_raises cat_png (Some "hi") alice w_empty
  = (Raise (HTTPException 500 "Connection aborted."), w_empty).
Proof.
  apply (upload_store_exception env_store_raises cat_png (Some "hi") alice w_empty
           "/tmp/tmpk3v9_x0a.png"
           (PyException "ConnectionError" "Connection aborted.")).
  - vm_compute. reflexivity.
  - reflexivity.
  - reflexivity.
  - reflexivity.
Defined.

(** X4: what is no [Exception] is not caught: a cancellation raised
    while the commit is awaited leaves the handler as it is, not as a
    500; the temporary file is removed all the same and the world is as it
    was. *)
Theorem upload_cancelled env file caption user w p upload_result content_type e :
  staged_path env file w = Some p →
  copyfileobj_exn env = None →
  imagekit_upload_file env = Return upload_result →
  status upload_result = 200%Z →
  UploadFile.content_type file = Some content_type →
  commit_exn env = Some e →
  is_Exception e = false →
  POST_upload env file caption user w = (Raise e, w).
Proof.
  intros Hp%staging_staged_path Hcopy Hupload Hstatus Htype Hcommit He. unfold POST_upload.
  rewrite upload_file_run. unfold upload_outcome, caught.
  apply Z.eqb_eq in Hstatus.
  by rewrite Hp, Hcopy, Hupload, Hstatus, Htype, Hcommit, He.
Qed.

Lemma upload_cancelled_witness :
  POST_upload env_cancelled cat_png (Some "hi") alice w_empty
  = (Raise (PyBaseException "CancelledError"), w_empty).
Proof.
  apply (upload_cancelled env_cancelled cat_png (Some "hi") alice w_empty
           "/tmp/tmpk3v9_x0a.png"
           (stored "https://ik.example/cat_Q1.png" "cat_Q1.png" 200) "image/png"
           (PyBaseException "CancelledError")).
  - vm_compute. reflexivity.
  - reflexivity.
  - reflexivity.
  - reflexivity.
  - reflexivity.
  - reflexivity.
  - reflexivity.
Defined.

(** X5: when the commit has gone through and it is the refresh that
    fails, the caller gets the 500 although the post is in the table. *)
Theorem upload_refresh_failure_keeps_post env file caption user w p upload_result
    content_type e :
  staged_path env file w = Some p →
  copyfileobj_exn env = None →
  imagekit_upload_file env = Return upload_result →
  status upload_result = 200%Z →
  UploadFile.content_type file = Some content_type →
  commit_exn env = None →
  existsb (λ r, Post.id r =? uuid4 env)%N (posts w) = false →
  refresh_exn env = Some e →
  is_Exception e = true →
  ∃ post,
    POST_upload env file caption user w
    = (Raise (HTTPException 500 (exn_str e)), with_post w post) ∧
    Post.id post = uuid4 env ∧ Post.user_id post = User.id user.
Proof.
  intros Hp%staging_staged_path Hcopy Hupload Hstatus Htype Hcommit Hkey Hrefresh He.
  eexists. unfold POST_upload. rewrite upload_file_run.
  unfold upload_outcome, caught.
  apply Z.eqb_eq in Hstatus.
  rewrite Hp, Hcopy, Hupload, Hstatus, Htype, Hcommit, Hkey, Hrefresh, He.
  done.
Qed.

Lemma upload_refresh_failure_keeps_post_witness :
  ∃ post,
    POST_upload env_refresh_fails cat_png (Some "hi") alice w_empty
    = (Raise (HTTPException 500 "connection lost"), with_post w_empty post) ∧
    Post.id post = 7%N ∧ Post.user_id post = 1%N.
Proof.
  apply (upload_refresh_failure_keeps_post env_refresh_fails cat_png (Some "hi") alice
           w_empty "/tmp/tmpk3v9_x0a.png"
           (stored "https://ik.example/cat_Q1.png" "cat_Q1.png" 200) "image/png"
           (PyException "OperationalError" "connection lost")).
  - vm_compute. reflexivity.
  - reflexivity.
  - reflexivity.
  - reflexivity.
  - reflexivity.
  - reflexivity.
  - reflexivity.
  - reflexivity.
  - reflexivity.
Defined.

(** X6: an upload that raises has changed nothing, unless it is the
    refresh that failed: no post, no file, the users as they were. *)
Theorem upload_failure_changes_nothing env file caption user w e w' :
  refresh_exn env = None →
  POST_upload env file caption user w = (Raise e, w') →
  w' = w.
Proof.
  intros Hrefresh. unfold POST_upload. rewrite upload_file_run.
  unfold upload_outcome. rewrite Hrefresh.
  repeat case_match; by intros [= <- <-].
Qed.

Lemma upload_failure_changes_nothing_witness :
  snd (POST_upload env_store_raises cat_png (Some "hi") alice w_one) = w_one.
Proof.
  eapply (upload_failure_changes_nothing env_store_raises cat_png (Some "hi") alice
            w_one (HTTPException 500 "Connection aborted.")).
  - reflexivity.
  - vm_compute. reflexivity.
Defined.

(** X7: an upload whose part has no content type is found out only when
    the media store has taken the file: the caller gets the 500 and no
    post is made. *)
Theorem upload_without_content_type env file caption user w p upload_result :
  staged_path env file w = Some p →
  copyfileobj_exn env = None →
  imagekit_upload_file env = Return upload_result →
  status upload_result = 200%Z →
  UploadFile.content_type file = None →
  POST_upload env file caption user w
  = (Raise (HTTPException 500 "'NoneType' object has no attribute 'startswith'"), w).
Proof.
  intros Hp%staging_staged_path Hcopy Hupload Hstatus Htype. unfold POST_upload.
  rewrite upload_file_run. unfold upload_outcome.
  apply Z.eqb_eq in Hstatus. by rewrite Hp, Hcopy, Hupload, Hstatus, Htype.
Qed.

Lemma upload_without_content_type_witness :
  POST_upload (env_status 200 7) no_content_type (Some "hi") alice w_empty
  = (Raise (HTTPException 500 "'NoneType' object has no attribute 'startswith'"),
     w_empty).
Proof.
  apply (upload_without_content_type (env_status 200 7) no_content_type (Some "hi")
           alice w_empty "/tmp/tmpk3v9_x0a.png"
           (stored "https://ik.example/cat_Q1.png" "cat_Q1.png" 200)).
  - vm_compute. reflexivity.
  - reflexivity.
  - reflexivity.
  - reflexivity.
  - reflexivity.
Defined.

(** X8: an upload leaves the users and the files alone, keeps every post
    there was, in place, and adds at most one post, which has the id the
    column default drew and belongs to the caller. *)
Theorem upload_adds_at_most_one_post env file caption user w r w' :
  POST_upload env file caption user w = (r, w') →
  w' = w ∨
  ∃ post, w' = with_post w post ∧ Post.id post = uuid4 env ∧
          Post.user_id post = User.id user.
Proof.
  unfold POST_upload. rewrite upload_file_run. unfold upload_outcome.
  repeat case_match; intros [= <- <-]; eauto.
Qed.

Lemma upload_adds_at_most_one_post_witness :
  snd (POST_upload (env_status 200 8) clip_mp4 None bob w_one) = w_one ∨
  ∃ post,
    snd (POST_upload (env_status 200 8) clip_mp4 None bob w_one) = with_post w_one post ∧
    Post.id post = 8%N ∧ Post.user_id post = 2%N.
Proof.
  eapply (upload_adds_at_most_one_post (env_status 200 8) clip_mp4 None bob w_one).
  apply surjective_pairing.
Defined.

(** ** The exits of the deletion *)

Lemma find_by_id post_uuid (table : list Post.t) post :
  List.find (λ r, Post.id r =? post_uuid)%N table = Some post →
  post ∈ table ∧ Post.id post = post_uuid.
Proof.
  intros [Hin Hid]%find_some. split; [by apply list_elem_of_In|by apply N.eqb_eq].
Qed.

Lemma delete_rows_one post (table : list Post.t) :
  delete_rows [post] table = without_id (Post.id post) table.
Proof.
  unfold delete_rows, without_id. apply filter_ext. intros r. simpl.
  by rewrite orb_false_r, N.eqb_sym.
Qed.

(** The whole of what the handler can do, by what it returns. *)
Lemma delete_post_run env post_id user w r w' :
  DELETE_post env post_id user w = (r, w') →
  match r with
  | Return ack =>
      ∃ post_uuid post,
        UUID post_id = Return post_uuid ∧
        List.find (λ r, Post.id r =? post_uuid)%N (posts w) = Some post ∧
        Post.user_id post = User.id user ∧
        commit_exn env = None ∧
        w' = mkWorld (files w) (without_id post_uuid (posts w)) (users w)
  | Raise e => w' = w
  end.
Proof.
  run_delete. destruct (UUID post_id) as [post_uuid|e0] eqn:Hid; simpl.
  - destruct (List.find _ _) as [post|] eqn:Hfind; simpl; [|by intros [= <- <-]].
    destruct (Post.user_id post =? User.id user)%N eqn:Hown; simpl;
      [|by intros [= <- <-]].
    destruct (commit_exn env) as [e1|] eqn:Hcommit; simpl.
    + destruct (is_Exception e1); by intros [= <- <-].
    + intros [= <- <-]. exists post_uuid, post. apply N.eqb_eq in Hown.
      split_and!; try done. rewrite delete_rows_one.
      by apply find_by_id in Hfind as [_ ->].
  - destruct (is_Exception e0); by intros [= <- <-].
Qed.



(** X10: a delete that fails, for whatever reason, changes nothing. *)
Theorem delete_failure_changes_nothing env post_id user w e w' :
  DELETE_post env post_id user w = (Raise e, w') → w' = w.
Proof. by intros ?%delete_post_run. Qed.

Lemma delete_failure_changes_nothing_witness :
  snd (DELETE_post (env_status 200 0) "00000000-0000-0000-0000-000000000007" bob w_one)
  = w_one.
Proof.
  eapply (delete_failure_changes_nothing (env_status 200 0)
            "00000000-0000-0000-0000-000000000007" bob w_one).
  vm_compute. reflexivity.
Defined.

(** Rows of a table with a primary key are told apart by their ids. *)
Lemma unique_ids_inj (table : list Post.t) a b :
  NoDup (Post.id <$> table) → a ∈ table → b ∈ table → Post.id a = Post.id b → a = b.
Proof.
  induction table as [|r table IH]; [by intros _ ?%elem_of_nil|].
  rewrite fmap_cons, NoDup_cons. intros [Hfresh Hunique] Ha Hb Hid.
  apply elem_of_cons in Ha as [->|Ha], Hb as [->|Hb]; [done| | |by apply IH].
  - exfalso. apply Hfresh. rewrite Hid. apply list_elem_of_fmap. eauto.
  - exfalso. apply Hfresh. rewrite <- Hid. apply list_elem_of_fmap. eauto.
Qed.

(** X11: in a table with a primary key, no delete removes a post of
    somebody else: whatever the identifier and the outcome, the posts of
    the other users are all still there. *)
Theorem delete_keeps_posts_of_others env post_id user w r w' post :
  unique_ids w →
  DELETE_post env post_id user w = (r, w') →
  post ∈ posts w →
  Post.user_id post ≠ User.id user →
  post ∈ posts w'.
Proof.
  intros Hunique Hrun Hin Hother. apply delete_post_run in Hrun.
  destruct r as [ack|e]; [|by subst].
  destruct Hrun as (post_uuid & mine & _ & Hfind & Hown & _ & ->). simpl.
  apply find_by_id in Hfind as [Hmine Hkey].
  apply list_elem_of_In, filter_In. split; [by apply list_elem_of_In|].
  apply negb_true_iff, N.eqb_neq. intros Hsame.
  apply Hother. rewrite <- Hown. f_equal.
  apply (unique_ids_inj (posts w)); [done..|congruence].
Qed.

Lemma delete_keeps_posts_of_others_witness :
  post_of 9 2 (datetime.mk 2024 3 1 8 30 0 0)
  ∈ posts (snd (DELETE_post (env_status 200 0) "00000000-0000-0000-0000-000000000007"
                  alice w_three)).
Proof.
  eapply (delete_keeps_posts_of_others (env_status 200 0)
            "00000000-0000-0000-0000-000000000007" alice w_three).
  - apply (bool_decide_unpack _). vm_compute. exact I.
  - apply surjective_pairing.
  - apply list_elem_of_In. simpl. auto.
  - vm_compute. discriminate.
Defined.



(** X13: a post is deleted once: after an acknowledged delete, the same
    identifier, from whoever, meets no post; the answer is the 500 that
    quotes the 404, and nothing changes. *)
Theorem delete_twice env post_id user w ack w' env2 user2 :
  DELETE_post env post_id user w = (Return ack, w') →
  DELETE_post env2 post_id user2 w'
  = (Raise (HTTPException 500 "404: Post not found"), w').
Proof.
  intros (post_uuid & post & Hid & _ & _ & _ & ->)%delete_post_run.
  apply (delete_post_not_found _ _ _ _ post_uuid); [done|]. simpl.
  destruct (List.find _ _) as [row|] eqn:Hfind; [|done].
  apply find_some in Hfind as [Hin Hrow]. unfold without_id in Hin.
  apply filter_In in Hin as [_ Hnot]. by rewrite Hrow in Hnot.
Qed.

Lemma delete_twice_witness :
  DELETE_post (env_status 200 0) "00000000-0000-0000-0000-000000000007" bob w_empty
  = (Raise (HTTPException 500 "404: Post not found"), w_empty).
Proof.
  eapply (delete_twice (env_status 200 0) "00000000-0000-0000-0000-000000000007"
            alice w_one _ w_empty (env_status 200 0) bob).
  vm_compute. reflexivity.
Defined.

(** X14: whatever the request, an error the deletion answers with is the
    500; only what is no [Exception] passes as it is.  The 404 and the 403
    the handler raises never reach the caller. *)
Theorem delete_error_is_never_404_or_403 env post_id user w e w' :
  DELETE_post env post_id user w = (Raise e, w') →
  ¬ (∃ detail, e = HTTPException 404 detail) ∧
  ¬ (∃ detail, e = HTTPException 403 detail).
Proof.
  intros [[detail' ->]|He]%delete_post_error_is_500.
  - split; by intros [detail [=]].
  - split; intros [detail ->]; done.
Qed.

Lemma delete_error_is_never_404_or_403_witness :
  ¬ (∃ detail, HTTPException 500 "404: Post not found" = HTTPException 404 detail) ∧
  ¬ (∃ detail, HTTPException 500 "404: Post not found" = HTTPException 403 detail).
Proof.
  eapply (delete_error_is_never_404_or_403 (env_status 200 0)
            "00000000-0000-0000-0000-000000000008" alice w_one).
  vm_compute. reflexivity.
Defined.

(** ** More on the feed *)

(** The dict of the emails after one more user. *)
Lemma user_dict_snoc users u :
  user_dict (users ++ [u]) = <[User.id u := User.email u]> (user_dict users).
Proof. unfold user_dict. by rewrite foldl_app. Qed.

Lemma user_dict_absent users k :
  (∀ u, u ∈ users → User.id u ≠ k) → user_dict users !! k = None.
Proof.
  induction users as [|u users IH] using rev_ind; intros Habsent; [done|].
  rewrite user_dict_snoc, lookup_insert_ne.
  - apply IH. intros u' Hu'. apply Habsent, elem_of_app. by left.
  - apply Habsent, elem_of_app. right. by apply list_elem_of_singleton.
Qed.

Lemma user_dict_present users u :
  NoDup (User.id <$> users) → u ∈ users →
  user_dict users !! User.id u = Some (User.email u).
Proof.
  induction users as [|u' users IH] using rev_ind; [by intros _ ?%elem_of_nil|].
  rewrite fmap_app, NoDup_app. intros (Hunique & Hfresh & _) Hin.
  rewrite user_dict_snoc.
  apply elem_of_app in Hin as [Hin| ->%list_elem_of_singleton].
  - rewrite lookup_insert_ne; [by apply IH|].
    intros Hsame. apply (Hfresh (User.id u)).
    + apply list_elem_of_fmap. eauto.
    + rewrite <- Hsame. simpl. by apply list_elem_of_singleton.
  - by rewrite lookup_insert_eq.
Qed.

(** X15: the feed is the entries of the posts, and in the entry of each
    post [email] is the email of the user whose id is the [user_id] of
    that post, when the users have distinct ids, and ["Unknown"] when no
    user has that id. *)
Theorem feed_email viewer w :
  ∃ feed,
    GET_feed viewer w
    = (Return [("posts", post_data viewer (user_dict (users w)) <$> feed)], w) ∧
    feed ≡ₚ posts w ∧
    Forall (λ post,
      dict_get "id" (post_data viewer (user_dict (users w)) post)
      = Some (VStr (uuid_str (Post.id post))) ∧
      dict_get "user_id" (post_data viewer (user_dict (users w)) post)
      = Some (VStr (uuid_str (Post.user_id post))) ∧
      ∃ email,
        dict_get "email" (post_data viewer (user_dict (users w)) post)
        = Some (VStr email) ∧
        ((∀ u, u ∈ users w → User.id u ≠ Post.user_id post) → email = "Unknown") ∧
        (∀ u, NoDup (User.id <$> users w) → u ∈ users w →
              User.id u = Post.user_id post → email = User.email u))
      feed.
Proof.
  exists (merge_sort not_older (posts w)).
  split; [apply get_feed_run|].
  split; [apply merge_sort_Permutation|].
  apply Forall_forall. intros post _. split; [done|]. split; [done|].
  eexists. split; [done|]. split.
  - intros Habsent. by rewrite user_dict_absent.
  - intros u Hunique Hin <-. by rewrite user_dict_present.
Qed.

(** X16: whatever the posts, ties in [created_at] included, the feed is
    the entries of all of them, none of them before one created later. *)
Theorem feed_never_older_first viewer w :
  ∃ feed,
    GET_feed viewer w
    = (Return [("posts", post_data viewer (user_dict (users w)) <$> feed)], w) ∧
    feed ≡ₚ posts w ∧
    StronglySorted not_older feed.
Proof.
  exists (merge_sort not_older (posts w)).
  split; [apply get_feed_run|].
  split; [apply merge_sort_Permutation|].
  apply (StronglySorted_merge_sort _).
Qed.

(** ** One request after another *)

(** X17: the post an upload has returned is in every feed asked for
    next, and its [is_owner] is true for the uploader and for nobody
    else. *)
Theorem upload_then_feed env file caption user w post w' viewer :
  POST_upload env file caption user w = (Return (Some post), w') →
  ∃ posts_data,
    GET_feed viewer w' = (Return [("posts", posts_data)], w') ∧
    post_data viewer (user_dict (users w')) post ∈ posts_data ∧
    dict_get "is_owner" (post_data viewer (user_dict (users w')) post)
    = Some (VBool (User.id user =? User.id viewer)%N).
Proof.
  intros Hrun. apply upload_file_exit in Hrun as (_ & _ & Hcreated & Hposts).
  assert (Post.user_id post = User.id user) as Howner
    by (by destruct Hcreated as (? & ? & _ & _ & _ & ->)).
  eexists. split; [apply get_feed_run|]. split.
  - apply list_elem_of_fmap. exists post. split; [done|].
    rewrite merge_sort_Permutation, Hposts. apply elem_of_app. right.
    by apply list_elem_of_singleton.
  - simpl. by rewrite Howner.
Qed.

Lemma upload_then_feed_witness :
  ∃ posts_data,
    GET_feed bob w_one = (Return [("posts", posts_data)], w_one) ∧
    post_data bob (user_dict (users w_one)) (post_of 7 1 noon) ∈ posts_data ∧
    dict_get "is_owner" (post_data bob (user_dict (users w_one)) (post_of 7 1 noon))
    = Some (VBool (User.id alice =? User.id bob)%N).
Proof.
  apply (upload_then_feed (env_status 200 7) cat_png (Some "hi") alice w_empty
           (post_of 7 1 noon) w_one bob).
  vm_compute. reflexivity.
Defined.



(** The steps of [serve], one endpoint at a time. *)
Lemma serve_keeps_files_and_users w c :
  files (serve w c) = files w ∧ users (serve w c) = users w.
Proof.
  destruct c as [env file caption user|user|env post_id user]; unfold serve.
  - destruct (POST_upload env file caption user w) as [r w'] eqn:Hrun.
    by apply upload_file_exit in Hrun as (? & ? & _).
  - by rewrite get_feed_run.
  - destruct (DELETE_post env post_id user w) as [r w'] eqn:Hrun.
    apply delete_post_run in Hrun. destruct r; [|by subst].
    by destruct Hrun as (? & ? & _ & _ & _ & _ & ->).
Qed.

(** X19: however many uploads, feeds and deletes are served, whatever
    their collaborators do, the files and the users at the end are those
    at the start: no temporary file is ever left over. *)
Theorem requests_leave_no_file calls w :
  files (serve_all w calls) = files w ∧ users (serve_all w calls) = users w.
Proof.
  unfold serve_all. revert w. induction calls as [|c calls IH]; intros w; [done|].
  simpl. destruct (IH (serve w c)) as [-> ->]. apply serve_keeps_files_and_users.
Qed.

(** ** Identifiers as strings *)

Lemma append_cons c a b : String c a +:+ b = String c (a +:+ b).
Proof. reflexivity. Qed.

Lemma append_nil a : a +:+ "" = a.
Proof. induction a as [|c a IH]; [done|]. by rewrite append_cons, IH. Qed.

Lemma append_assoc a b c : (a +:+ b) +:+ c = a +:+ b +:+ c.
Proof. induction a as [|x a IH]; [done|]. by rewrite !append_cons, IH. Qed.

Lemma string_forallb_app P a b :
  string_forallb P (a +:+ b) = string_forallb P a && string_forallb P b.
Proof.
  induction a as [|c a IH]; [done|].
  rewrite append_cons. simpl. by rewrite IH, andb_assoc.
Qed.

Lemma string_forallb_impl (P Q : ascii → bool) s :
  (∀ c, P c = true → Q c = true) →
  string_forallb P s = true → string_forallb Q s = true.
Proof.
  intros HPQ. induction s as [|c s IH]; [done|]. simpl.
  rewrite !andb_true_iff. intros [? ?]. auto.
Qed.

Lemma string_forallb_substring P (k n : nat) s :
  string_forallb P s = true → string_forallb P (String.substring k n s) = true.
Proof.
  revert k n. induction s as [|c s IH]; intros k n; simpl.
  - by destruct k, n.
  - rewrite andb_true_iff. intros [Hc Hs].
    destruct k as [|k]; [destruct n as [|n]|]; simpl; [done| |by apply IH].
    rewrite Hc. by apply IH.
Qed.

(** *** Slices *)

Lemma substring_split (s : string) (k n m : nat) :
  (k + n ≤ String.length s)%nat →
  String.substring k n s +:+ String.substring (k + n)%nat m s
  = String.substring k (n + m)%nat s.
Proof.
  revert k n. induction s as [|c s IH]; intros k n; simpl.
  - intros Hle. assert (k = 0) as -> by lia. assert (n = 0) as -> by lia. done.
  - intros Hle. destruct k as [|k]; simpl.
    + destruct n as [|n]; simpl; [done|].
      rewrite append_cons. f_equal. apply (IH 0 n). lia.
    + apply IH. lia.
Qed.

Lemma substring_all s : String.substring 0 (String.length s) s = s.
Proof. induction s as [|c s IH]; [done|]. simpl. by rewrite IH. Qed.

(** *** Digits *)

Lemma digits_acc base width n acc :
  digits base width n acc = digits base width n "" +:+ acc.
Proof.
  revert n acc. induction width as [|width IH]; intros n acc; [done|].
  simpl. rewrite (IH _ (String _ acc)), (IH _ (String _ "")).
  by rewrite append_assoc, append_cons.
Qed.

Lemma length_append a b :
  String.length (a +:+ b) = (String.length a + String.length b)%nat.
Proof. induction a as [|c a IH]; [done|]. rewrite append_cons. simpl. by rewrite IH. Qed.

Lemma length_digits base width n : String.length (digits base width n "") = width.
Proof.
  revert n. induction width as [|width IH]; intros n; [done|].
  simpl. rewrite digits_acc, length_append, IH. simpl. lia.
Qed.

Lemma digit_char_hex n :
  (n < 16)%N → lower_hex (digit_char n) = true ∧ hex_value (digit_char n) = Some n.
Proof.
  intros Hn.
  assert (n = 0 ∨ n = 1 ∨ n = 2 ∨ n = 3 ∨ n = 4 ∨ n = 5 ∨ n = 6 ∨ n = 7 ∨ n = 8
          ∨ n = 9 ∨ n = 10 ∨ n = 11 ∨ n = 12 ∨ n = 13 ∨ n = 14 ∨ n = 15)%N
    as Hcases by lia.
  repeat (destruct Hcases as [->|Hcases]; [by vm_compute|]).
  subst n. by vm_compute.
Qed.

Lemma digits_hex width n : string_forallb lower_hex (digits 16 width n "") = true.
Proof.
  revert n. induction width as [|width IH]; intros n; [done|].
  simpl. rewrite digits_acc, string_forallb_app, IH. simpl.
  destruct (digit_char_hex (n mod 16)) as [-> _]; [|done].
  by apply N.mod_lt.
Qed.

Lemma read_hex_app a b acc :
  read_hex (a +:+ b) acc = read_hex a acc ≫= read_hex b.
Proof.
  revert acc. induction a as [|c a IH]; intros acc; [done|].
  rewrite append_cons. simpl. destruct (hex_value c); [apply IH|done].
Qed.

(** Reading the digits [digits] wrote gives the number back, as far as
    the digits reach. *)
Lemma read_hex_digits width n :
  read_hex (digits 16 width n "") 0 = Some (n mod 16 ^ N.of_nat width)%N.
Proof.
  revert n. induction width as [|width IH]; intros n.
  - simpl. by rewrite N.mod_1_r.
  - simpl digits. rewrite digits_acc, read_hex_app, IH. simpl.
    destruct (digit_char_hex (n mod 16)) as [_ ->]; [by apply N.mod_lt|].
    f_equal. rewrite Nat2N.inj_succ, N.pow_succ_r'.
    rewrite (N.Div0.mod_mul_r n 16). lia.
Qed.

(** A lower-case hexadecimal digit is a digit, and none of the other
    characters [int] and [len] look for. *)
Lemma lower_hex_digit c :
  lower_hex c = true →
  is_space c = false ∧ Ascii.eqb c "+" = false ∧ Ascii.eqb c "-" = false ∧
  Ascii.eqb c "_" = false ∧ Ascii.eqb c "x" = false ∧ Ascii.eqb c "X" = false ∧
  is_continuation c = false ∧ hex_value c ≠ None.
Proof.
  unfold lower_hex, in_chars. simpl. rewrite !orb_true_iff.
  intros Hc.
  repeat (destruct Hc as [Hc|Hc]; [apply Ascii.eqb_eq in Hc as ->; by vm_compute|]).
  done.
Qed.

Lemma lower_hex_ascii c : lower_hex c = true → (N_of_ascii c <? 128)%N = true.
Proof.
  unfold lower_hex, in_chars. simpl. rewrite !orb_true_iff.
  intros Hc.
  repeat (destruct Hc as [Hc|Hc]; [apply Ascii.eqb_eq in Hc as ->; by vm_compute|]).
  done.
Qed.

Lemma is_ascii_hex s : string_forallb lower_hex s = true → is_ascii s = true.
Proof.
  unfold is_ascii. induction s as [|c s IH]; [done|]. simpl.
  rewrite !andb_true_iff. intros [Hc Hs]. split; [by apply lower_hex_ascii|auto].
Qed.

Lemma len_hex s : string_forallb lower_hex s = true → len s = String.length s.
Proof.
  induction s as [|c s IH]; [done|]. simpl. rewrite andb_true_iff.
  intros [Hc Hs]. apply lower_hex_digit in Hc as (_ & _ & _ & _ & _ & _ & -> & _).
  by rewrite IH.
Qed.

(** On a run of hexadecimal digits the scan reads all of them. *)
Lemma read_digits_hex s acc count :
  string_forallb lower_hex s = true →
  ∃ n, read_hex s acc = Some n ∧
       read_digits s false acc count = Some (n, (count + String.length s)%nat, "").
Proof.
  revert acc count. induction s as [|c s IH]; intros acc count.
  - intros _. exists acc. simpl. by rewrite Nat.add_0_r.
  - simpl. rewrite andb_true_iff. intros [Hc Hs].
    apply lower_hex_digit in Hc as (_ & _ & _ & _ & _ & _ & _ & Hc).
    destruct (hex_value c) as [d|]; [|done].
    destruct (IH (16 * acc + d)%N (S count) Hs) as (n & Hn & Hread).
    exists n. split; [done|]. rewrite Hread. do 3 f_equal. lia.
Qed.

(** [int] reads a run of hexadecimal digits as the number they write. *)
Lemma int16_hex s :
  s ≠ "" → string_forallb lower_hex s = true →
  ∃ n, read_hex s 0 = Some n ∧ int16 s = Some (Z.of_N n).
Proof.
  intros Hne Hs. pose proof (is_ascii_hex s Hs) as Hascii.
  destruct s as [|c s]; [done|]. clear Hne.
  destruct (read_digits_hex (String c s) 0 0 Hs) as (n & Hn & Hread).
  exists n. split; [done|].
  simpl in Hs. apply andb_true_iff in Hs as [Hc Hs].
  apply lower_hex_digit in Hc as (Hspace & Hplus & Hminus & Hunder & _).
  assert (skip_prefix (String c s) = String c s) as Hprefix.
  { destruct s as [|c1 s1]; [done|]. simpl in Hs.
    apply andb_true_iff in Hs as [Hc1 _].
    apply lower_hex_digit in Hc1 as (_ & _ & _ & _ & Hx & HX & _).
    cbn [skip_prefix]. by rewrite Hx, HX, andb_false_r. }
  unfold int16, long_from_string. rewrite Hascii. cbn [skip_space]. rewrite Hspace.
  cbn [skip_sign]. rewrite Hplus, Hminus. cbn [fst snd].
  rewrite Hprefix, Hunder, Hread. cbn [String.length Nat.add Nat.eqb skip_space].
  done.
Qed.

(** *** What the constructor strips *)

Lemma prefix_other a old c s : a ≠ c → String.prefix (String a old) (String c s) = false.
Proof. intros Hne. simpl. by destruct (ascii_dec a c). Qed.

(** Where the first character of [old] does not occur, [replace] finds
    nothing to remove. *)
Lemma remove_sub_absent a old s :
  string_forallb (λ c, negb (Ascii.eqb a c)) s = true →
  remove_sub (String a old) 0 s = s.
Proof.
  induction s as [|c s IH]; [done|].
  simpl string_forallb. rewrite andb_true_iff, negb_true_iff, Ascii.eqb_neq.
  intros [Hne Hs]. cbn [remove_sub]. rewrite (prefix_other _ _ _ _ Hne). by rewrite IH.
Qed.

Lemma lstrip_absent chars s :
  string_forallb (λ c, negb (in_chars c chars)) s = true → lstrip chars s = s.
Proof.
  destruct s as [|c s]; [done|]. simpl.
  rewrite andb_true_iff, negb_true_iff. by intros [-> _].
Qed.

Lemma rstrip_absent chars s :
  string_forallb (λ c, negb (in_chars c chars)) s = true → rstrip chars s = s.
Proof.
  induction s as [|c s IH]; [done|]. simpl.
  rewrite andb_true_iff, negb_true_iff. intros [Hc Hs].
  rewrite (IH Hs), Hc. by destruct s.
Qed.

Lemma lower_hex_plain c :
  lower_hex c = true →
  Ascii.eqb "u" c = false ∧ Ascii.eqb "-" c = false ∧ in_chars c "{}" = false.
Proof.
  unfold lower_hex, in_chars. simpl. rewrite !orb_true_iff.
  intros Hc. repeat (destruct Hc as [Hc|Hc]; [apply Ascii.eqb_eq in Hc as ->; done|]).
  done.
Qed.

(** Removing the hyphens skips a run of hexadecimal digits and drops a
    hyphen. *)
Lemma remove_hyphens_hex a b :
  string_forallb lower_hex a = true →
  remove_sub "-" 0 (a +:+ b) = a +:+ remove_sub "-" 0 b.
Proof.
  induction a as [|c a IH]; [done|]. simpl string_forallb.
  rewrite andb_true_iff. intros [Hc Ha]. rewrite !append_cons. cbn [remove_sub].
  apply lower_hex_plain in Hc as (_ & Hc & _). apply Ascii.eqb_neq in Hc.
  rewrite (prefix_other _ _ _ _ Hc). by rewrite IH.
Qed.

Lemma remove_hyphens_hyphen b : remove_sub "-" 0 ("-" +:+ b) = remove_sub "-" 0 b.
Proof.
  change ("-" +:+ b) with (String "-" b). cbn [remove_sub]. simpl. by destruct b.
Qed.

(** The characters of a UUID written by [str]. *)
Lemma uuid_str_chars u :
  string_forallb (λ c, lower_hex c || Ascii.eqb "-" c) (uuid_str u) = true.
Proof.
  unfold uuid_str, slice.
  assert (∀ k n, string_forallb (λ c, lower_hex c || Ascii.eqb "-" c)
                   (String.substring k n (digits 16 32 u "")) = true) as Hpiece.
  { intros k n. apply (string_forallb_impl lower_hex); [by intros c ->|].
    apply string_forallb_substring, digits_hex. }
  by rewrite !string_forallb_app, !Hpiece.
Qed.

(** The constructor reads back what [str] wrote. *)
Lemma UUID_uuid_str_inverse u : (u < 2 ^ 128)%N → UUID (uuid_str u) = Return u.
Proof.
  intros Hu. unfold UUID, UUID_hex.
  pose proof (uuid_str_chars u) as Hchars.
  rewrite (remove_sub_absent "u" "rn:" (uuid_str u)),
    (remove_sub_absent "u" "uid:" (uuid_str u)).
  2,3: revert Hchars; apply string_forallb_impl; intros c [Hc|Hc]%orb_true_iff;
    [by apply lower_hex_plain in Hc as (-> & _)
    |by apply Ascii.eqb_eq in Hc as <-].
  unfold strip. rewrite lstrip_absent, rstrip_absent.
  2,3: revert Hchars; apply string_forallb_impl; intros c [Hc|Hc]%orb_true_iff;
    [by apply lower_hex_plain in Hc as (_ & _ & ->)
    |by apply Ascii.eqb_eq in Hc as <-].
  assert (remove_sub "-" 0 (uuid_str u) = digits 16 32 u "") as ->.
  { unfold uuid_str, slice.
    change (Z.to_nat 0) with 0%nat. change (Z.to_nat (8 - 0)) with 8%nat.
    change (Z.to_nat 8) with 8%nat. change (Z.to_nat (12 - 8)) with 4%nat.
    change (Z.to_nat 12) with 12%nat. change (Z.to_nat (16 - 12)) with 4%nat.
    change (Z.to_nat 16) with 16%nat. change (Z.to_nat (20 - 16)) with 4%nat.
    change (Z.to_nat 20) with 20%nat. change (Z.to_nat (32 - 20)) with 12%nat.
    pose proof (digits_hex 32 u) as Hhex.
    pose proof (length_digits 16 32 u) as Hlen.
    set (hex := digits 16 32 u "") in *.
    do 4 (rewrite remove_hyphens_hex by (by apply string_forallb_substring);
          rewrite remove_hyphens_hyphen).
    rewrite <- (append_nil (String.substring 20 12 hex)) at 1.
    rewrite remove_hyphens_hex by (by apply string_forallb_substring).
    change (remove_sub "-" 0 "") with "". rewrite append_nil.
    do 3 (rewrite <- append_assoc, substring_split by (rewrite Hlen; lia)).
    rewrite substring_split by (rewrite Hlen; lia).
    simpl Nat.add. rewrite <- Hlen at 1. apply substring_all. }
  pose proof (digits_hex 32 u) as Hhex.
  pose proof (length_digits 16 32 u) as Hlen.
  rewrite (len_hex _ Hhex), Hlen, Nat.eqb_refl. cbn [negb].
  destruct (int16_hex (digits 16 32 u "")) as (n & Hn & ->); [|done|].
  { intros Hempty. by rewrite Hempty in Hlen. }
  rewrite read_hex_digits in Hn. injection Hn as <-.
  rewrite N.mod_small by (by change (16 ^ N.of_nat 32)%N with (2 ^ 128)%N).
  assert ((0 <=? Z.of_N u)%Z && (Z.of_N u <? 2 ^ 128)%Z = true) as ->.
  { apply andb_true_iff. split; [apply Z.leb_le; lia|]. apply Z.ltb_lt.
    change (2 ^ 128)%Z with (Z.of_N (2 ^ 128)%N). by apply N2Z.inj_lt. }
  by rewrite N2Z.id.
Qed.

(** X20: [str] and the constructor of [uuid.UUID] are inverse on 128-bit
    identifiers: the string [str] makes of an identifier is read back as
    that identifier. *)
Theorem UUID_of_uuid_str u : (u < 2 ^ 128)%N → UUID (uuid_str u) = Return u.
Proof. intros Hu. by apply UUID_uuid_str_inverse. Qed.

Lemma UUID_of_uuid_str_witness :
  UUID (uuid_str 0x12345678123456781234567812345678)
  = Return 0x12345678123456781234567812345678%N.
Proof.
  apply (UUID_of_uuid_str 0x12345678123456781234567812345678). vm_compute. reflexivity.
Defined.

Lemma find_by_id_present post_uuid (table : list Post.t) post :
  post ∈ table → Post.id post = post_uuid →
  is_Some (List.find (λ r, Post.id r =? post_uuid)%N table).
Proof.
  intros Hin Hid. destruct (List.find _ _) as [row|] eqn:Hfind; [by eexists|].
  apply list_elem_of_In in Hin. apply (find_none _ _ Hfind) in Hin.
  apply N.eqb_neq in Hin. done.
Qed.

(** X21: the owner who sends the [id] of a feed entry to the deletion
    deletes that post: in a table with a primary key, when the commit
    goes through, the delete is acknowledged, and the world left is the
    old one without that post. *)
Theorem delete_by_feed_id env user viewer w post :
  unique_ids w →
  post ∈ posts w →
  (Post.id post < 2 ^ 128)%N →
  Post.user_id post = User.id user →
  commit_exn env = None →
  ∃ id_string ack,
    dict_get "id" (post_data viewer (user_dict (users w)) post) = Some (VStr id_string) ∧
    DELETE_post env id_string user w
    = (Return ack, mkWorld (files w) (without_id (Post.id post) (posts w)) (users w)) ∧
    post ∉ without_id (Post.id post) (posts w).
Proof.
  intros Hunique Hin Hid Hown Hcommit.
  exists (uuid_str (Post.id post)). eexists. split; [done|].
  destruct (find_by_id_present (Post.id post) (posts w) post Hin eq_refl)
    as [row Hfind].
  pose proof (find_by_id _ _ _ Hfind) as [Hrow Hsame].
  assert (row = post) as -> by (by apply (unique_ids_inj (posts w))).
  split.
  - rewrite (delete_post_own env _ user w (Post.id post) post);
      [by rewrite delete_rows_one|by apply UUID_uuid_str_inverse|done..].
  - unfold without_id. rewrite list_elem_of_In, filter_In.
    intros [_ Hnot]. by rewrite N.eqb_refl in Hnot.
Qed.

Lemma delete_by_feed_id_witness :
  ∃ id_string ack,
    dict_get "id" (post_data bob (user_dict (users w_one)) (post_of 7 1 noon))
    = Some (VStr id_string) ∧
    DELETE_post (env_status 200 0) id_string alice w_one
    = (Return ack,
       mkWorld (files w_one) (without_id (Post.id (post_of 7 1 noon)) (posts w_one))
         (users w_one)) ∧
    post_of 7 1 noon ∉ without_id (Post.id (post_of 7 1 noon)) (posts w_one).
Proof.
  apply (delete_by_feed_id (env_status 200 0) alice bob w_one (post_of 7 1 noon)).
  - apply (bool_decide_unpack _). vm_compute. exact I.
  - apply list_elem_of_In. simpl. auto.
  - vm_compute. reflexivity.
  - reflexivity.
  - reflexivity.
Defined.

(** A request adds a post only as an upload, and then one that an upload
    makes. *)
Lemma serve_post_origin w c post :
  post ∈ posts (serve w c) →
  post ∈ posts w ∨
  ∃ env file caption user,
    c = Upload env file caption user ∧
    created_post env file (default "" caption) user post.
Proof.
  destruct c as [env file caption user|user|env post_id user]; unfold serve.
  - destruct (POST_upload env file caption user w) as [r w'] eqn:Hrun.
    apply upload_file_exit in Hrun as (_ & _ & Hexit). simpl.
    assert (posts w' = posts w ∨
            ∃ post', created_post env file (default "" caption) user post' ∧
                     posts w' = (posts w ++ [post'])%list) as [->|(post' & ? & ->)].
    { destruct r as [[post'|]|e].
      - destruct Hexit as [? ?]. right. eauto.
      - destruct Hexit.
      - destruct Hexit as (_ & _ & [?|(post' & ? & ?)]); [by left|right; eauto]. }
    + by left.
    + intros [?| ->%list_elem_of_singleton]%elem_of_app; [by left|].
      right. eauto 8.
  - rewrite get_feed_run. by left.
  - destruct (DELETE_post env post_id user w) as [r w'] eqn:Hrun.
    apply delete_post_run in Hrun. destruct r; [|subst; by left].
    destruct Hrun as (? & ? & _ & _ & _ & _ & ->). simpl. unfold without_id.
    rewrite list_elem_of_In, filter_In, <- list_elem_of_In. intros [? _]. by left.
Qed.

(** X22: no post without an upload that the media store took: after any
    sequence of requests, a post of the table was there at the start, or
    one of the requests is an upload by the user the post belongs to, to
    which the media store answered 200 with the [url] and the [file_name]
    of the post. *)
Theorem posts_come_from_uploads calls w post :
  post ∈ posts (serve_all w calls) →
  post ∈ posts w ∨
  ∃ env file caption user upload_result,
    Upload env file caption user ∈ calls ∧
    imagekit_upload_file env = Return upload_result ∧
    status upload_result = 200%Z ∧
    Post.user_id post = User.id user ∧
    Post.url post = UploadFileResult.url upload_result ∧
    Post.file_name post = UploadFileResult.name upload_result.
Proof.
  unfold serve_all. revert w. induction calls as [|c calls IH]; intros w; [by left|].
  simpl. intros [Hin|Hlater]%IH.
  - apply serve_post_origin in Hin as [?|(env & file & caption & user & -> & Hmade)];
      [by left|].
    right. destruct Hmade as (upload_result & content_type & ? & ? & _ & ->).
    exists env, file, caption, user, upload_result. split_and!; try done.
    apply elem_of_cons. by left.
  - right. destruct Hlater as (env & file & caption & user & upload_result & ? & ?).
    exists env, file, caption, user, upload_result. split; [|done].
    apply elem_of_cons. by right.
Qed.

Lemma posts_come_from_uploads_witness :
  post_of 7 1 noon ∈ posts w_empty ∨
  ∃ env file caption user upload_result,
    Upload env file caption user
    ∈ [Feed bob; Upload (env_status 200 7) cat_png (Some "hi") alice] ∧
    imagekit_upload_file env = Return upload_result ∧
    status upload_result = 200%Z ∧
    Post.user_id (post_of 7 1 noon) = User.id user ∧
    Post.url (post_of 7 1 noon) = UploadFileResult.url upload_result ∧
    Post.file_name (post_of 7 1 noon) = UploadFileResult.name upload_result.
Proof.
  apply (posts_come_from_uploads
           [Feed bob; Upload (env_status 200 7) cat_png (Some "hi") alice] w_empty).
  vm_compute. apply list_elem_of_In. simpl. auto.
Defined.

(** ** The name of the temporary file *)







